(** * arp-scan-rs, src/utils.rs: interface selection, network sizing,
      result table rendering and JSON / YAML / CSV export.

    Rust [String]s are modelled as Rocq byte strings ([String.string]: an
    [ascii] is one byte), so [String.length] is Rust's [str::len] (bytes)
    and [char_count] is Rust's [str::chars().count()].  Fixed-width integers
    are [Z] with their wrap-around written out where the code can wrap.
    A call to [process::exit] is modelled by the [outcome] type below. *)

From Stdlib Require Import ZArith List String Ascii Bool Lia Permutation Sorted.
Import ListNotations.
Open Scope string_scope.
Open Scope Z_scope.
Set Warnings "-register-all".


(** ** Process outcome: a returned value, or [process::exit(code)] after
    the text written to stderr. *)
Inductive outcome (A : Type) : Type :=
| Ret (v : A)
| Exit (code : Z) (stderr : string).
Arguments Ret {A} v.
Arguments Exit {A} code stderr.

(** ** Text helpers (Rust's [format!] machinery on the values used here). *)

(** The line feed that [println!] / [eprintln!] append. *)
Definition nl : string := String "010"%char EmptyString.

Definition char_of_digit (d : Z) : ascii := ascii_of_nat (48 + Z.to_nat d).

Fixpoint dec_aux (fuel : nat) (n : Z) (acc : string) : string :=
  match fuel with
  | O => acc
  | S f =>
      let acc' := String (char_of_digit (n mod 10)) acc in
      if n <? 10 then acc' else dec_aux f (n / 10) acc'
  end.

(** [{}] on an unsigned integer (up to u128: 39 digits). *)
Definition dec (n : Z) : string := dec_aux 40 n "".

Definition hex_digit (d : Z) : ascii :=
  if d <? 10 then ascii_of_nat (48 + Z.to_nat d)
  else ascii_of_nat (87 + Z.to_nat d).

(** [{:02x}] on a byte value. *)
Definition hex2 (b : Z) : string :=
  String (hex_digit (Z.shiftr b 4)) (String (hex_digit (Z.land b 15)) "").

(** [{:02x}] on a [u8]. *)
Definition hex_byte (b : Byte.byte) : string := hex2 (Z.of_nat (Byte.to_nat b)).

(** A UTF-8 continuation byte is 0b10xxxxxx. *)
Definition is_continuation (c : ascii) : bool :=
  Z.eqb (Z.shiftr (Z.of_nat (nat_of_ascii c)) 6) 2.

(** [str::chars().count()]: the bytes that start a character. *)
Fixpoint char_count (s : string) : nat :=
  match s with
  | EmptyString => O
  | String c r => if is_continuation c then char_count r else S (char_count r)
  end.

Fixpoint repeat_char (c : ascii) (n : nat) : string :=
  match n with
  | O => EmptyString
  | S k => String c (repeat_char c k)
  end.

(** [{:<w}] with fill character [fill] ([Formatter::pad]): left-aligned,
    padded up to [w] characters, never truncated. *)
Definition pad_left_with (fill : ascii) (s : string) (w : nat) : string :=
  s ++ repeat_char fill (w - char_count s).

(** [{: <w}] *)
Definition pad (s : string) (w : nat) : string := pad_left_with " "%char s w.

(** ** Data model *)

(** [std::net::Ipv4Addr], kept as its [u32] value: its [Ord] is the order
    of that value. *)
Definition Ipv4Addr := Z.
Definition Ipv6Addr := Z.

(** [Display for Ipv4Addr]: dotted decimal. *)
Definition fmt_ipv4 (a : Ipv4Addr) : string :=
  dec (Z.land (Z.shiftr a 24) 255) ++ "." ++
  dec (Z.land (Z.shiftr a 16) 255) ++ "." ++
  dec (Z.land (Z.shiftr a 8) 255) ++ "." ++
  dec (Z.land a 255).

(** [pnet::util::MacAddr(u8, u8, u8, u8, u8, u8)]. *)
Inductive MacAddr : Type :=
| mk_mac (b0 b1 b2 b3 b4 b5 : Byte.byte).

(** [Display for MacAddr]: [write!(fmt, "{:02x}:{:02x}:...")]; it writes
    straight to the formatter, so a width given by the caller is not applied. *)
Definition fmt_mac (m : MacAddr) : string :=
  match m with
  | mk_mac b0 b1 b2 b3 b4 b5 =>
      hex_byte b0 ++ ":" ++ hex_byte b1 ++ ":" ++ hex_byte b2 ++ ":" ++
      hex_byte b3 ++ ":" ++ hex_byte b4 ++ ":" ++ hex_byte b5
  end.

(** [ipnetwork::Ipv4Network] / [Ipv6Network]: address and prefix. *)
Record Ipv4Network := { v4_addr : Ipv4Addr; v4_prefix : Z }.
Record Ipv6Network := { v6_addr : Ipv6Addr; v6_prefix : Z }.

(** [ipnetwork::IpNetwork] *)
Inductive IpNetwork : Type :=
| V4 (n : Ipv4Network)
| V6 (n : Ipv6Network).

(** [ipnetwork::NetworkSize]: [V4(u32)] or [V6(u128)]. *)
Inductive NetworkSize : Type :=
| SizeV4 (s : Z)
| SizeV6 (s : Z).

Definition is_ipv4 (n : IpNetwork) : bool :=
  match n with V4 _ => true | V6 _ => false end.

(** ** compute_network_size (utils.rs, lines 116-129) *)
Section NetworkSizeCalculator.
(** The per-family sizes are computed by the [ipnetwork] crate,
    [Ipv4Network::size() -> u32] and [Ipv6Network::size() -> u128]. *)
Variable ipv4_size : Ipv4Network -> Z.
Variable ipv6_size : Ipv6Network -> Z.

(** [IpNetwork::size] *)
Definition size (n : IpNetwork) : NetworkSize :=
  match n with
  | V4 n4 => SizeV4 (ipv4_size n4)
  | V6 n6 => SizeV6 (ipv6_size n6)
  end.

(** [total_size + network_size] on [u128] (release build: wrapping). *)
Definition u128_add (a b : Z) : Z := (a + b) mod 2 ^ 128.

(** The [fold] of [compute_network_size], from accumulator [total_size];
    the closure's [process::exit(1)] ends the fold. *)
Fixpoint fold_network_size (total_size : Z) (ip_networks : list IpNetwork)
  : outcome Z :=
  match ip_networks with
  | [] => Ret total_size
  | ip_network :: rest =>
      match size ip_network with
      | SizeV4 ipv4_network_size =>
          fold_network_size (u128_add total_size ipv4_network_size) rest
      | SizeV6 _ =>
          Exit 1 ("IPv6 networks are not supported by the ARP protocol" ++ nl)
      end
  end.

Definition compute_network_size (ip_networks : list IpNetwork) : outcome Z :=
  fold_network_size 0 ip_networks.

(** Spec side: the arithmetic sum of the IPv4 sizes of a list. *)
Fixpoint ipv4_total (ip_networks : list IpNetwork) : Z :=
  match ip_networks with
  | [] => 0
  | V4 n :: rest => ipv4_size n + ipv4_total rest
  | V6 _ :: rest => ipv4_total rest
  end.
End NetworkSizeCalculator.

(** Sample size functions: 2^(32-p) addresses for an IPv4 prefix [p] as a
    [u32], 2^(128-p) for an IPv6 prefix. *)
Definition ipv4_size_of_prefix (n : Ipv4Network) : Z := 2 ^ (32 - v4_prefix n) mod 2 ^ 32.
Definition ipv6_size_of_prefix (n : Ipv6Network) : Z := 2 ^ (128 - v6_prefix n).

(** ** Network interfaces (select_default_interface, lines 67-88) *)

(** [pnet_datalink::NetworkInterface]. *)
Record NetworkInterface := {
  name : string;
  index : Z;
  mac : option MacAddr;
  ips : list IpNetwork;
  flags : Z
}.

(** Linux interface flag bits used by [is_up] / [is_loopback]. *)
Definition IFF_UP : Z := 1.
Definition IFF_LOOPBACK : Z := 8.

(** [self.flags & IFF_UP != 0] *)
Definition is_up (i : NetworkInterface) : bool :=
  negb (Z.eqb (Z.land (flags i) IFF_UP) 0).

(** [self.flags & IFF_LOOPBACK != 0] *)
Definition is_loopback (i : NetworkInterface) : bool :=
  negb (Z.eqb (Z.land (flags i) IFF_LOOPBACK) 0).

(** [Vec::is_empty] *)
Definition is_empty {A} (l : list A) : bool :=
  match l with [] => true | _ => false end.

(** The closure given to [interfaces.iter().find]. *)
Definition default_interface_filter (interface : NetworkInterface) : bool :=
  if match mac interface with None => true | Some _ => false end then false
  else if is_empty (ips interface) || negb (is_up interface)
          || is_loopback interface then false
  else
    let potential_ipv4 := find is_ipv4 (ips interface) in
    match potential_ipv4 with
    | None => false
    | Some _ => true
    end.

(** [interfaces.iter().find(...).cloned()] *)
Definition select_default_interface (interfaces : list NetworkInterface)
  : option NetworkInterface :=
  find default_interface_filter interfaces.

(** Spec side (§4.1): the five conditions of a default interface. *)
Definition qualifies_as_default (i : NetworkInterface) : Prop :=
  mac i <> None /\ ips i <> [] /\ is_up i = true /\ is_loopback i = false /\
  (exists ip, In ip (ips i) /\ is_ipv4 ip = true).

(** ** Scan results *)

(** [network::TargetDetails] *)
Record TargetDetails := {
  ipv4 : Ipv4Addr;
  target_mac : MacAddr;
  hostname : option string;
  vendor : option string
}.

(** [network::ResponseSummary] *)
Record ResponseSummary := {
  packet_count : Z;
  arp_count : Z;
  duration_ms : Z
}.

(** [args::ScanOptions], the fields read by this file. *)
Record ScanOptions := {
  resolve_hostname : bool;
  source_ipv4 : option Ipv4Addr;
  destination_mac : option MacAddr
}.

(** [target_details.sort_by_key(|item| item.ipv4)]: a stable sort by
    ascending IPv4 address.  A stable sort has a single possible result,
    computed here by insertion sort: the head of the input goes before the
    first element of the sorted rest whose key is not smaller, so it stays
    in front of the later elements with an equal key. *)
Fixpoint insert_by_ipv4 (t : TargetDetails) (l : list TargetDetails)
  : list TargetDetails :=
  match l with
  | [] => [t]
  | u :: rest =>
      if ipv4 t <=? ipv4 u then t :: u :: rest else u :: insert_by_ipv4 t rest
  end.

Fixpoint sort_by_ipv4 (l : list TargetDetails) : list TargetDetails :=
  match l with
  | [] => []
  | t :: rest => insert_by_ipv4 t (sort_by_ipv4 rest)
  end.

(** ** Table rendering (display_scan_results, lines 135-198) *)

Definition ESC : ascii := "027"%char.

(** [ansi_term::Color::Red.paint(text)] as displayed. *)
Definition red_paint (text : string) : string :=
  String ESC "[31m" ++ text ++ String ESC "[0m".

(** The [hostname_len] / [vendor_len] loop (lines 139-154). *)
Fixpoint column_widths_from (hostname_len vendor_len : nat)
  (target_details : list TargetDetails) : nat * nat :=
  match target_details with
  | [] => (hostname_len, vendor_len)
  | detail :: rest =>
      let hostname_len' :=
        match hostname detail with
        | Some h => if Nat.ltb hostname_len (String.length h)
                    then String.length h else hostname_len
        | None => hostname_len
        end in
      let vendor_len' :=
        match vendor detail with
        | Some v => if Nat.ltb vendor_len (String.length v)
                    then String.length v else vendor_len
        | None => vendor_len
        end in
      column_widths_from hostname_len' vendor_len' rest
  end.

Definition column_widths (target_details : list TargetDetails) : nat * nat :=
  column_widths_from 15 15 target_details.

(** The header and separator rows (lines 156-160). *)
Definition table_header (h_max v_max : nat) : string :=
  nl ++
  "| IPv4            | MAC               | " ++ pad "Hostname" h_max ++
  " | " ++ pad "Vendor" v_max ++ " |" ++ nl ++
  "|-----------------|-------------------|-" ++ pad_left_with "-" "" h_max ++
  "-|-" ++ pad_left_with "-" "" v_max ++ "-|" ++ nl.

(** The hostname text of a row (lines 164-168). *)
Definition hostname_text (options : ScanOptions) (detail : TargetDetails) : string :=
  match hostname detail with
  | Some h => h
  | None => if negb (resolve_hostname options) then "(disabled)" else ""
  end.

(** The vendor text of a row (lines 169-172). *)
Definition vendor_text (detail : TargetDetails) : string :=
  match vendor detail with
  | Some v => v
  | None => ""
  end.

(** One data row (line 173). *)
Definition table_row (options : ScanOptions) (h_max v_max : nat)
  (detail : TargetDetails) : string :=
  "| " ++ pad (fmt_ipv4 (ipv4 detail)) 15 ++ " | " ++ fmt_mac (target_mac detail) ++
  " | " ++ pad (hostname_text options detail) h_max ++
  " | " ++ pad (vendor_text detail) v_max ++ " |" ++ nl.

(** The host count phrase (lines 179-183). *)
Definition target_count_text (target_count : nat) : string :=
  match target_count with
  | O => red_paint "no hosts found"
  | 1%nat => "1 host found"
  | _ => dec (Z.of_nat target_count) ++ " hosts found"
  end.

(** The packet count phrase (lines 187-191). *)
Definition packet_count_text (packet_count : Z) : string :=
  if packet_count =? 0 then "No packets received, "
  else if packet_count =? 1 then "1 packet received, "
  else dec packet_count ++ " packets received, ".

(** The ARP packet count phrase (lines 192-196). *)
Definition arp_count_text (arp_count : Z) : string :=
  if arp_count =? 0 then "no ARP packets filtered"
  else if arp_count =? 1 then "1 ARP packet filtered"
  else dec arp_count ++ " ARP packets filtered".

Section ResultTableRenderer.
(** [format!("{:.3}", duration_ms as f32 / 1000_f32)]: a floating-point
    rendering, left abstract. *)
Variable fmt_seconds : Z -> string.

(** [display_scan_results]: the text written to stdout. *)
Definition display_scan_results (response_summary : ResponseSummary)
  (target_details : list TargetDetails) (options : ScanOptions) : string :=
  let sorted := sort_by_ipv4 target_details in
  let '(hostname_len, vendor_len) := column_widths sorted in
  (if negb (is_empty sorted) then table_header hostname_len vendor_len else "") ++
  String.concat "" (map (table_row options hostname_len vendor_len) sorted) ++
  nl ++ "ARP scan finished, " ++ target_count_text (List.length sorted) ++
  " in " ++ fmt_seconds (duration_ms response_summary) ++ " seconds" ++ nl ++
  packet_count_text (packet_count response_summary) ++
  arp_count_text (arp_count response_summary) ++ nl ++
  nl.
End ResultTableRenderer.

(** ** Export (lines 200-315) *)

Module Ser.
(** [SerializableResultItem] *)
Record SerializableResultItem := {
  ipv4 : string;
  mac : string;
  hostname : string;
  vendor : string
}.

(** [SerializableGlobalResult] *)
Record SerializableGlobalResult := {
  packet_count : Z;
  arp_count : Z;
  duration_ms : Z;
  results : list SerializableResultItem
}.
End Ser.

(** The closure mapped over the targets in [get_serializable_result]. *)
Definition to_result_item (detail : TargetDetails) : Ser.SerializableResultItem :=
  {| Ser.ipv4 := fmt_ipv4 (ipv4 detail);
     Ser.mac := fmt_mac (target_mac detail);
     Ser.hostname := match hostname detail with Some h => h | None => "" end;
     Ser.vendor := match vendor detail with Some v => v | None => "" end |}.

(** [get_serializable_result] *)
Definition get_serializable_result (response_summary : ResponseSummary)
  (target_details : list TargetDetails) : Ser.SerializableGlobalResult :=
  {| Ser.packet_count := packet_count response_summary;
     Ser.arp_count := arp_count response_summary;
     Ser.duration_ms := duration_ms response_summary;
     Ser.results := map to_result_item target_details |}.

Definition DQ : ascii := "034"%char.
Definition BSLASH : ascii := "092"%char.

(** [String.concat] with a separator, as [join]. *)
Definition join (sep : string) (l : list string) : string := String.concat sep l.

(** *** serde's data model *)

(** What a [Serialize] impl hands to a serializer: [serialize_u64] (the
    impl for [usize] calls it), [serialize_u128], [serialize_str],
    [serialize_seq] with its elements, [serialize_struct] with its fields,
    [serialize_map] with its entries, or an error the impl raises itself
    ([ser::Error::custom(msg)]). *)
Inductive serde_data : Type :=
| DU64 (n : Z)
| DU128 (n : Z)
| DStr (s : string)
| DSeq (items : list serde_data)
| DStruct (name : string) (fields : list (string * serde_data))
| DMap (entries : list (serde_data * serde_data))
| DCustom (msg : string).

(** [#[derive(Serialize)]] on [SerializableResultItem]. *)
Definition serialize_result_item (r : Ser.SerializableResultItem) : serde_data :=
  DStruct "SerializableResultItem"
    [("ipv4", DStr (Ser.ipv4 r)); ("mac", DStr (Ser.mac r));
     ("hostname", DStr (Ser.hostname r)); ("vendor", DStr (Ser.vendor r))].

(** [#[derive(Serialize)]] on [SerializableGlobalResult]: [usize] fields go
    through [serialize_u64], the [u128] through [serialize_u128], the
    [Vec] is a sequence. *)
Definition serialize_global_result (g : Ser.SerializableGlobalResult) : serde_data :=
  DStruct "SerializableGlobalResult"
    [("packet_count", DU64 (Ser.packet_count g));
     ("arp_count", DU64 (Ser.arp_count g));
     ("duration_ms", DU128 (Ser.duration_ms g));
     ("results", DSeq (map serialize_result_item (Ser.results g)))].

(** Serializing the elements of a compound in order: the first error
    stops the serializer ([?] on each element). *)
Fixpoint traverse_sum {A B E : Type} (f : A -> B + E) (l : list A) : list B + E :=
  match l with
  | [] => inl []
  | x :: rest =>
      match f x with
      | inr e => inr e
      | inl y =>
          match traverse_sum f rest with
          | inr e => inr e
          | inl ys => inl (y :: ys)
          end
      end
  end.

(** *** JSON ([serde_json::to_string]: [CompactFormatter] into a [Vec<u8>],
    then [String::from_utf8_unchecked]) *)

(** serde_json's escape of one byte of a string. *)
Definition json_escape_byte (c : ascii) : string :=
  let b := Z.of_nat (nat_of_ascii c) in
  if Ascii.eqb c DQ then String BSLASH (String DQ "")
  else if Ascii.eqb c BSLASH then String BSLASH (String BSLASH "")
  else if b =? 8 then String BSLASH "b"
  else if b =? 9 then String BSLASH "t"
  else if b =? 10 then String BSLASH "n"
  else if b =? 12 then String BSLASH "f"
  else if b =? 13 then String BSLASH "r"
  else if b <? 32 then String BSLASH "u00" ++ hex2 b
  else String c "".

Fixpoint json_escape (s : string) : string :=
  match s with
  | EmptyString => ""
  | String c r => json_escape_byte c ++ json_escape r
  end.

Definition json_str (s : string) : string := String DQ (json_escape s ++ String DQ "").

(** A [key:value] member of an object. *)
Definition json_member (key value : string) : string := json_str key ++ ":" ++ value.

(** [MapKeySerializer]: a map key must serialize as a string; an integer
    key is written as a quoted number; any other key is the error
    [key must be a string]. *)
Definition json_key (k : serde_data) : string + string :=
  match k with
  | DStr s => inl (json_str s)
  | DU64 n => inl (String DQ (dec n ++ String DQ ""))
  | DU128 n => inl (String DQ (dec n ++ String DQ ""))
  | DCustom msg => inr msg
  | _ => inr "key must be a string"
  end.

(** [Serializer for &mut serde_json::Serializer<Vec<u8>, CompactFormatter>]:
    integers in decimal, escaped strings, [[a,b]] sequences, [{k:v,...}]
    structs and maps; an error stops it.  Writing to a [Vec] never fails. *)
Fixpoint json_ser (d : serde_data) : string + string :=
  match d with
  | DU64 n => inl (dec n)
  | DU128 n => inl (dec n)
  | DStr s => inl (json_str s)
  | DSeq items =>
      match traverse_sum json_ser items with
      | inl ts => inl ("[" ++ join "," ts ++ "]")
      | inr e => inr e
      end
  | DStruct _ fields =>
      match traverse_sum (fun kv => match kv with
                                    | (k, v) =>
                                        match json_ser v with
                                        | inl t => inl (json_member k t)
                                        | inr e => inr e
                                        end
                                    end) fields with
      | inl ts => inl ("{" ++ join "," ts ++ "}")
      | inr e => inr e
      end
  | DMap entries =>
      match traverse_sum (fun kv => match kv with
                                    | (k, v) =>
                                        match json_key k with
                                        | inr e => inr e
                                        | inl kt =>
                                            match json_ser v with
                                            | inl t => inl (kt ++ ":" ++ t)
                                            | inr e => inr e
                                            end
                                        end
                                    end) entries with
      | inl ts => inl ("{" ++ join "," ts ++ "}")
      | inr e => inr e
      end
  | DCustom msg => inr msg
  end.

(** [export_to_json]: [serde_json::to_string(&global_result)], and on its
    error the [unwrap_or_else] closure ([eprintln!] then [exit(1)]). *)
Definition export_to_json (response_summary : ResponseSummary)
  (target_details : list TargetDetails) : outcome string :=
  let target_details := sort_by_ipv4 target_details in
  let global_result := get_serializable_result response_summary target_details in
  match json_ser (serialize_global_result global_result) with
  | inl text => Ret text
  | inr err => Exit 1 ("Could not export JSON results (" ++ err ++ ")" ++ nl)
  end.

(** *** YAML ([serde_yaml::to_string], version 0.8: the value becomes a
    [yaml_rust::Yaml] tree, which [YamlEmitter::dump] writes out) *)

(** [yaml_rust::Yaml]: the variants the serializer builds from the data
    model above. *)
Inductive Yaml : Type :=
| YReal (v : string)
| YInteger (v : Z)
| YString (v : string)
| YArray (v : list Yaml)
| YHash (h : list (Yaml * Yaml)).

(** [PartialEq for Yaml] (derived; a [Hash] compares its entries in order). *)
Fixpoint yaml_eqb (a b : Yaml) : bool :=
  match a, b with
  | YReal x, YReal y => String.eqb x y
  | YInteger x, YInteger y => Z.eqb x y
  | YString x, YString y => String.eqb x y
  | YArray xs, YArray ys =>
      (fix go (xs ys : list Yaml) : bool :=
         match xs, ys with
         | [], [] => true
         | x :: xs', y :: ys' => yaml_eqb x y && go xs' ys'
         | _, _ => false
         end) xs ys
  | YHash xs, YHash ys =>
      (fix go (xs ys : list (Yaml * Yaml)) : bool :=
         match xs, ys with
         | [], [] => true
         | (kx, vx) :: xs', (ky, vy) :: ys' => yaml_eqb kx ky && yaml_eqb vx vy && go xs' ys'
         | _, _ => false
         end) xs ys
  | _, _ => false
  end.

(** [LinkedHashMap::insert]: a key already present gets the new value and
    moves to the back; a new key is appended. *)
Definition hash_insert (k v : Yaml) (h : list (Yaml * Yaml)) : list (Yaml * Yaml) :=
  filter (fun kv => negb (yaml_eqb (fst kv) k)) h ++ [(k, v)].

Definition i64_max : Z := 2 ^ 63 - 1.

(** [serialize_u64] / [serialize_u128] of [SerializerToYaml]: an [Integer]
    (an [i64]) when the value fits, else a [Real] holding its decimal text. *)
Definition yaml_unsigned (n : Z) : Yaml :=
  if n <=? i64_max then YInteger n else YReal (dec n).

(** [SerializerToYaml]: sequences become arrays; struct fields and map
    entries are inserted in order into a [Hash] (a field name is a
    [Yaml::String] key); an error stops it. *)
Fixpoint to_yaml (d : serde_data) : Yaml + string :=
  match d with
  | DU64 n => inl (yaml_unsigned n)
  | DU128 n => inl (yaml_unsigned n)
  | DStr s => inl (YString s)
  | DSeq items =>
      match traverse_sum to_yaml items with
      | inl ys => inl (YArray ys)
      | inr e => inr e
      end
  | DStruct _ fields =>
      match traverse_sum (fun kv => match kv with
                                    | (k, v) =>
                                        match to_yaml v with
                                        | inl yv => inl (YString k, yv)
                                        | inr e => inr e
                                        end
                                    end) fields with
      | inl kvs => inl (YHash (fold_left (fun h kv => hash_insert (fst kv) (snd kv) h) kvs []))
      | inr e => inr e
      end
  | DMap entries =>
      match traverse_sum (fun kv => match kv with
                                    | (k, v) =>
                                        match to_yaml k with
                                        | inr e => inr e
                                        | inl yk =>
                                            match to_yaml v with
                                            | inl yv => inl (yk, yv)
                                            | inr e => inr e
                                            end
                                        end
                                    end) entries with
      | inl kvs => inl (YHash (fold_left (fun h kv => hash_insert (fst kv) (snd kv) h) kvs []))
      | inr e => inr e
      end
  | DCustom msg => inr msg
  end.

Section YamlExport.
(** The emitter's rendering of a string ([need_quotes], then plain text or
    [escape_str]): left abstract, except on the strings below. *)
Variable yaml_scalar : string -> string.

(** A lowercase identifier (a lowercase ASCII letter or [_], then
    lowercase letters, digits or [_]) that is none of the words YAML reads
    as a boolean, a null or a float: [need_quotes] is [false] on it (no
    indicator, no special character, not a number), so the emitter writes
    it as it is.  The field names are such strings. *)
Definition ident_start (c : ascii) : bool :=
  let b := Z.of_nat (nat_of_ascii c) in ((97 <=? b) && (b <=? 122)) || (b =? 95).

Fixpoint ident_rest (s : string) : bool :=
  match s with
  | EmptyString => true
  | String c r =>
      let b := Z.of_nat (nat_of_ascii c) in
      (ident_start c || ((48 <=? b) && (b <=? 57))) && ident_rest r
  end.

Definition lower_ident (s : string) : bool :=
  match s with
  | EmptyString => false
  | String c r => ident_start c && ident_rest r
  end.

Definition yaml_reserved : list string :=
  ["yes"; "no"; "true"; "false"; "on"; "off"; "null"; "y"; "n";
   "inf"; "infinity"; "nan"].

Definition yaml_plain (s : string) : bool :=
  lower_ident s && negb (existsb (String.eqb s) yaml_reserved).

(** [emit_node] on a [Yaml::String]. *)
Definition yaml_str (s : string) : string :=
  if yaml_plain s then s else yaml_scalar s.

(** [write_indent]: [level] times [best_indent] (2) spaces, nothing for a
    level of 0 or less. *)
Definition yaml_indent (level : Z) : string :=
  String.concat "" (repeat "  " (Z.to_nat level)).

Definition yaml_is_complex (y : Yaml) : bool :=
  match y with YArray _ | YHash _ => true | _ => false end.

(** What [emit_val] writes before the node at [level]: a space, or a line
    break and the indentation of the next level for a non-empty array or
    hash not written inline ([compact] is [true]). *)
Definition yaml_val_prefix (level : Z) (inline : bool) (y : Yaml) : string :=
  match y with
  | YArray v => if inline || is_empty v then " " else nl ++ yaml_indent (level + 1)
  | YHash h => if inline || is_empty h then " " else nl ++ yaml_indent (level + 1)
  | _ => " "
  end.

(** [emit_node] at [self.level = level] ([emit_array] and [emit_hash] raise
    the level by one; an element or entry after the first starts on a new,
    indented line; [emit_val] is [yaml_val_prefix] then [emit_node]).
    Integers here come from unsigned values, so [{}] on them is [dec]. *)
Fixpoint yaml_emit_node (level : Z) (y : Yaml) : string :=
  match y with
  | YReal v => v
  | YInteger v => dec v
  | YString v => yaml_str v
  | YArray v =>
      match v with
      | [] => "[]"
      | x :: rest =>
          "-" ++ yaml_val_prefix (level + 1) true x ++ yaml_emit_node (level + 1) x ++
          String.concat ""
            (map (fun x' => nl ++ yaml_indent (level + 1) ++
                            "-" ++ yaml_val_prefix (level + 1) true x' ++
                            yaml_emit_node (level + 1) x') rest)
      end
  | YHash h =>
      match h with
      | [] => "{}"
      | kv :: rest =>
          (if yaml_is_complex (fst kv) then
             "?" ++ yaml_val_prefix (level + 1) true (fst kv) ++
             yaml_emit_node (level + 1) (fst kv) ++ nl ++ yaml_indent (level + 1) ++
             ":" ++ yaml_val_prefix (level + 1) true (snd kv) ++
             yaml_emit_node (level + 1) (snd kv)
           else
             yaml_emit_node (level + 1) (fst kv) ++ ":" ++
             yaml_val_prefix (level + 1) false (snd kv) ++
             yaml_emit_node (level + 1) (snd kv)) ++
          String.concat ""
            (map (fun kv' => nl ++ yaml_indent (level + 1) ++
                    (if yaml_is_complex (fst kv') then
                       "?" ++ yaml_val_prefix (level + 1) true (fst kv') ++
                       yaml_emit_node (level + 1) (fst kv') ++ nl ++
                       yaml_indent (level + 1) ++
                       ":" ++ yaml_val_prefix (level + 1) true (snd kv') ++
                       yaml_emit_node (level + 1) (snd kv')
                     else
                       yaml_emit_node (level + 1) (fst kv') ++ ":" ++
                       yaml_val_prefix (level + 1) false (snd kv') ++
                       yaml_emit_node (level + 1) (snd kv'))) rest)
      end
  end.

(** [serde_yaml::to_string]: [YamlEmitter::dump] writes [---], a line break
    and the document from level -1; [to_writer] then adds a line break.
    The emitter writes through [fmt::Write], so the bytes are UTF-8 and the
    final [String::from_utf8] cannot fail. *)
Definition serde_yaml_to_string (d : serde_data) : string + string :=
  match to_yaml d with
  | inl doc => inl ("---" ++ nl ++ yaml_emit_node (-1) doc ++ nl)
  | inr e => inr e
  end.

(** [export_to_yaml], with the [unwrap_or_else] closure on an error. *)
Definition export_to_yaml (response_summary : ResponseSummary)
  (target_details : list TargetDetails) : outcome string :=
  let target_details := sort_by_ipv4 target_details in
  let global_result := get_serializable_result response_summary target_details in
  match serde_yaml_to_string (serialize_global_result global_result) with
  | inl text => Ret text
  | inr err => Exit 1 ("Could not export YAML results (" ++ err ++ ")" ++ nl)
  end.

(** The text these serializers write for the two structs of this file. *)
Definition json_item (r : Ser.SerializableResultItem) : string :=
  "{" ++ join "," [json_member "ipv4" (json_str (Ser.ipv4 r));
                   json_member "mac" (json_str (Ser.mac r));
                   json_member "hostname" (json_str (Ser.hostname r));
                   json_member "vendor" (json_str (Ser.vendor r))] ++ "}".

Definition json_to_string (g : Ser.SerializableGlobalResult) : string :=
  "{" ++ join "," [json_member "packet_count" (dec (Ser.packet_count g));
                   json_member "arp_count" (dec (Ser.arp_count g));
                   json_member "duration_ms" (dec (Ser.duration_ms g));
                   json_member "results"
                     ("[" ++ join "," (map json_item (Ser.results g)) ++ "]")] ++ "}".

Definition yaml_item (r : Ser.SerializableResultItem) : string :=
  "  - ipv4: " ++ yaml_str (Ser.ipv4 r) ++ nl ++
  "    mac: " ++ yaml_str (Ser.mac r) ++ nl ++
  "    hostname: " ++ yaml_str (Ser.hostname r) ++ nl ++
  "    vendor: " ++ yaml_str (Ser.vendor r) ++ nl.

Definition yaml_to_string (g : Ser.SerializableGlobalResult) : string :=
  "---" ++ nl ++
  "packet_count: " ++ dec (Ser.packet_count g) ++ nl ++
  "arp_count: " ++ dec (Ser.arp_count g) ++ nl ++
  "duration_ms: " ++ dec (Ser.duration_ms g) ++ nl ++
  "results:" ++
  match Ser.results g with
  | [] => " []" ++ nl
  | rs => nl ++ String.concat "" (map yaml_item rs)
  end.
End YamlExport.

(** The [Yaml] tree [to_yaml] builds for a [SerializableResultItem]. *)
Definition yaml_item_tree (r : Ser.SerializableResultItem) : Yaml :=
  YHash [(YString "ipv4", YString (Ser.ipv4 r));
         (YString "mac", YString (Ser.mac r));
         (YString "hostname", YString (Ser.hostname r));
         (YString "vendor", YString (Ser.vendor r))].

(** *** CSV ([csv::Writer] over a [Vec<u8>], default configuration) *)

(** Byte checks. *)
Definition byte_of (c : ascii) : Z := Z.of_nat (nat_of_ascii c).
Definition in_range (c : ascii) (lo hi : Z) : bool := (lo <=? byte_of c) && (byte_of c <=? hi).

(** [str::from_utf8] validation (the rules of [core::str::run_utf8_validation]:
    no overlong form, no surrogate, nothing above U+10FFFF). *)
Fixpoint utf8_valid (s : string) : bool :=
  match s with
  | EmptyString => true
  | String c r =>
      let b := byte_of c in
      if b <? 128 then utf8_valid r
      else if (194 <=? b) && (b <=? 223) then
        match r with
        | String c1 r1 => in_range c1 128 191 && utf8_valid r1
        | _ => false
        end
      else if (224 <=? b) && (b <=? 239) then
        match r with
        | String c1 (String c2 r2) =>
            in_range c1 (if b =? 224 then 160 else 128) (if b =? 237 then 159 else 191)
            && in_range c2 128 191 && utf8_valid r2
        | _ => false
        end
      else if (240 <=? b) && (b <=? 244) then
        match r with
        | String c1 (String c2 (String c3 r3)) =>
            in_range c1 (if b =? 240 then 144 else 128) (if b =? 244 then 143 else 191)
            && in_range c2 128 191 && in_range c3 128 191 && utf8_valid r3
        | _ => false
        end
      else false
  end.

(** csv-core's [QuoteStyle::Necessary]: a field is quoted when it holds the
    delimiter, the quote or a line terminator byte. *)
Definition csv_requires_quotes (c : ascii) : bool :=
  let b := byte_of c in
  (b =? 44) || Ascii.eqb c DQ || (b =? 10) || (b =? 13).

Fixpoint csv_needs_quotes (s : string) : bool :=
  match s with
  | EmptyString => false
  | String c r => csv_requires_quotes c || csv_needs_quotes r
  end.

(** Inside quotes a quote is doubled. *)
Fixpoint csv_escape (s : string) : string :=
  match s with
  | EmptyString => EmptyString
  | String c r =>
      if Ascii.eqb c DQ then String DQ (String DQ (csv_escape r))
      else String c (csv_escape r)
  end.

Definition csv_field (s : string) : string :=
  if csv_needs_quotes s then String DQ (csv_escape s ++ String DQ "") else s.

(** [csv::Writer<Vec<u8>>]: the buffer, whether the header row has been
    written, and the field count of the first record. *)
Record CsvWriter := {
  wtr_buf : string;
  wtr_header_written : bool;
  wtr_first_len : option nat
}.

Definition csv_writer_new : CsvWriter :=
  {| wtr_buf := ""; wtr_header_written := false; wtr_first_len := None |}.

(** [Writer::write_record]: fields joined by [,], terminated by [\n]; with
    the default [flexible(false)] a record whose length differs from the
    first one is an [UnequalLengths] error. *)
Definition csv_record_line (fields : list string) : string :=
  join "," (map csv_field fields) ++ nl.

Definition csv_write_record (w : CsvWriter) (fields : list string)
  : CsvWriter + string :=
  match wtr_first_len w with
  | Some n =>
      if Nat.eqb n (List.length fields) then
        inl {| wtr_buf := wtr_buf w ++ csv_record_line fields;
               wtr_header_written := wtr_header_written w;
               wtr_first_len := Some n |}
      else inr ("found record with " ++ dec (Z.of_nat (List.length fields)) ++
                " fields, but the previous record has " ++ dec (Z.of_nat n) ++ " fields")
  | None =>
      inl {| wtr_buf := wtr_buf w ++ csv_record_line fields;
             wtr_header_written := wtr_header_written w;
             wtr_first_len := Some (List.length fields) |}
  end.

(** The field names of [SerializableResultItem], and its field values. *)
Definition result_item_header : list string := ["ipv4"; "mac"; "hostname"; "vendor"].

Definition result_item_fields (r : Ser.SerializableResultItem) : list string :=
  [Ser.ipv4 r; Ser.mac r; Ser.hostname r; Ser.vendor r].

(** [Writer::serialize] of a struct: with the default [has_headers(true)]
    the first call writes the header row of field names, then the record. *)
Definition csv_serialize (w : CsvWriter) (r : Ser.SerializableResultItem)
  : CsvWriter + string :=
  let w1 :=
    if wtr_header_written w then inl w
    else match csv_write_record w result_item_header with
         | inl w' => inl {| wtr_buf := wtr_buf w'; wtr_header_written := true;
                            wtr_first_len := wtr_first_len w' |}
         | inr e => inr e
         end in
  match w1 with
  | inl w' => csv_write_record w' (result_item_fields r)
  | inr e => inr e
  end.

(** The [for result in global_result.results] loop of [export_to_csv]. *)
Fixpoint csv_serialize_all (w : CsvWriter) (rs : list Ser.SerializableResultItem)
  : outcome CsvWriter :=
  match rs with
  | [] => Ret w
  | r :: rest =>
      match csv_serialize w r with
      | inl w' => csv_serialize_all w' rest
      | inr err => Exit 1 ("Could not serialize result to CSV (" ++ err ++ ")" ++ nl)
      end
  end.

(** [export_to_csv].  [flush] and [into_inner] of a writer over a [Vec<u8>]
    cannot fail (writing to a vector does not); [String::from_utf8] checks
    the bytes. *)
Definition export_to_csv (response_summary : ResponseSummary)
  (target_details : list TargetDetails) : outcome string :=
  let target_details := sort_by_ipv4 target_details in
  let global_result := get_serializable_result response_summary target_details in
  match csv_serialize_all csv_writer_new (Ser.results global_result) with
  | Exit code msg => Exit code msg
  | Ret wtr =>
      let convert_writer := wtr_buf wtr in
      if utf8_valid convert_writer then Ret convert_writer
      else Exit 1 ("Could not convert final CSV result to text (invalid utf-8 sequence)" ++ nl)
  end.

(** ** is_root_user (lines 17-19) *)

(** [std::env::VarError] *)
Inductive VarError : Type :=
| NotPresent
| NotUnicode (raw : string).

(** [std::env::var(key)] over the process environment, kept as its list of
    [NAME=value] entries: the value of the first entry named [key] (as
    [getenv] reads it), [NotPresent] when there is none, [NotUnicode] when
    the value is not UTF-8 ([OsString::into_string]). *)
Definition env_var (environ : list (string * string)) (key : string) : string + VarError :=
  match find (fun kv => String.eqb (fst kv) key) environ with
  | None => inr NotPresent
  | Some (_, v) => if utf8_valid v then inl v else inr (NotUnicode v)
  end.

(** [env::var("USER").unwrap_or_else(|_| String::from("")) == *"root"] *)
Definition is_root_user (environ : list (string * string)) : bool :=
  String.eqb (match env_var environ "USER" with inl v => v | inr _ => "" end) "root".

(** ** show_interfaces (lines 26-61) and display_prescan_details (lines 94-110) *)

(** "✔" (U+2714) and "✖" (U+2716) in UTF-8. *)
Definition CHECK_MARK : string := String "226" (String "156" (String "148" "")).
Definition CROSS_MARK : string := String "226" (String "156" (String "150" "")).

(** [ansi_term::Color::Green.paint(text)] as displayed. *)
Definition green_paint (text : string) : string :=
  String ESC "[32m" ++ text ++ String ESC "[0m".

(** The [interface_count] / [ready_count] counters have the inferred type
    [i32]: [+= 1] wraps as a release build does, and [{}] writes a sign. *)
Definition i32_wrap (x : Z) : Z := (x + 2 ^ 31) mod 2 ^ 32 - 2 ^ 31.
Definition i32_add (a b : Z) : Z := i32_wrap (a + b).
Definition dec_i32 (n : Z) : string := if n <? 0 then "-" ++ dec (- n) else dec n.

(** The condition of the [ready_count += 1] (line 50). *)
Definition is_ready (interface : NetworkInterface) : bool :=
  is_up interface && negb (is_loopback interface) && negb (is_empty (ips interface)).

Section IpNetworkDisplay.
(** [Display for Ipv6Network] (the RFC 5952 text of [Ipv6Addr], then
    [/prefix]): left abstract. *)
Variable fmt_ipv6_network : Ipv6Network -> string.

(** [Display for IpNetwork]; [Display for Ipv4Network] is
    [write!(f, "{}/{}", self.ip(), self.prefix())]. *)
Definition fmt_ip_network (n : IpNetwork) : string :=
  match n with
  | V4 n4 => fmt_ipv4 (v4_addr n4) ++ "/" ++ dec (v4_prefix n4)
  | V6 n6 => fmt_ipv6_network n6
  end.

(** One line of the interface list (lines 34-47). *)
Definition interface_line (interface : NetworkInterface) : string :=
  let up_text :=
    if is_up interface then green_paint CHECK_MARK ++ " UP"
    else red_paint CROSS_MARK ++ " DOWN" in
  let mac_text :=
    match mac interface with
    | Some mac_address => fmt_mac mac_address
    | None => "No MAC address"
    end in
  let first_ip :=
    match nth_error (ips interface) 0 with
    | Some ip_address => fmt_ip_network ip_address
    | None => ""
    end in
  pad (name interface) 20 ++ " " ++ pad up_text 18 ++ " " ++ pad mac_text 20 ++
  " " ++ first_ip ++ nl.

(** The [for interface in interfaces.iter()] loop (lines 32-53): the two
    counters and the text printed so far. *)
Fixpoint show_interfaces_loop (interface_count ready_count : Z) (out : string)
  (interfaces : list NetworkInterface) : Z * Z * string :=
  match interfaces with
  | [] => (interface_count, ready_count, out)
  | interface :: rest =>
      let out := out ++ interface_line interface in
      let interface_count := i32_add interface_count 1 in
      let ready_count := if is_ready interface then i32_add ready_count 1 else ready_count in
      show_interfaces_loop interface_count ready_count out rest
  end.

(** [show_interfaces]: the text written to stdout. *)
Definition show_interfaces (interfaces : list NetworkInterface) : string :=
  let '(interface_count, ready_count, out) := show_interfaces_loop 0 0 "" interfaces in
  nl ++ out ++ nl ++
  "Found " ++ dec_i32 interface_count ++ " network interfaces, " ++
  dec_i32 ready_count ++ " seems ready for ARP scans" ++ nl ++
  match select_default_interface interfaces with
  | Some default_interface =>
      "Default network interface will be " ++ name default_interface ++ nl
  | None => ""
  end ++ nl.

(** [display_prescan_details]: the text written to stdout. *)
Definition display_prescan_details (ip_networks : list IpNetwork)
  (selected_interface : NetworkInterface) (scan_options : ScanOptions) : string :=
  let network_list :=
    join ", " (map fmt_ip_network (firstn 5 ip_networks)) ++
    (if Nat.ltb 5 (List.length ip_networks)
     then " (" ++ dec (Z.of_nat (List.length ip_networks - 5)) ++ " more)"
     else "") in
  nl ++ "Selected interface " ++ name selected_interface ++ " with IP " ++
  network_list ++ nl ++
  match source_ipv4 scan_options with
  | Some forced_source_ipv4 =>
      "The ARP source IPv4 will be forced to " ++ fmt_ipv4 forced_source_ipv4 ++ nl
  | None => ""
  end ++
  match destination_mac scan_options with
  | Some forced_destination_mac =>
      "The ARP destination MAC will be forced to " ++ fmt_mac forced_destination_mac ++ nl
  | None => ""
  end.
End IpNetworkDisplay.

(** ** Spec-side notions used by the properties below *)

(** Ascending IPv4 order of targets. *)
Definition ipv4_le (a b : TargetDetails) : Prop := ipv4 a <= ipv4 b.

(** The hostnames / vendors that are present, in list order. *)
Definition present_hostnames (l : list TargetDetails) : list string :=
  flat_map (fun t => match hostname t with Some h => [h] | None => [] end) l.
Definition present_vendors (l : list TargetDetails) : list string :=
  flat_map (fun t => match vendor t with Some v => [v] | None => [] end) l.

(** §4.4: [max(15, longest present value)], lengths as [str::len]. *)
Definition spec_hostname_width (l : list TargetDetails) : nat :=
  fold_right Nat.max 15%nat (map String.length (present_hostnames l)).
Definition spec_vendor_width (l : list TargetDetails) : nat :=
  fold_right Nat.max 15%nat (map String.length (present_vendors l)).

(** The strings a target carries are Rust [String]s: valid UTF-8. *)
Definition target_strings_valid (t : TargetDetails) : Prop :=
  (forall h, hostname t = Some h -> utf8_valid h = true) /\
  (forall v, vendor t = Some v -> utf8_valid v = true).

(** Every byte below 128. *)
Fixpoint ascii_only (s : string) : bool :=
  match s with
  | EmptyString => true
  | String c r => (byte_of c <? 128) && ascii_only r
  end.

(** §4.5: the CSV text expected for a list of records: the header row of
    field names, then one row per record; nothing for no record. *)
Definition spec_csv_text (rs : list Ser.SerializableResultItem) : string :=
  match rs with
  | [] => ""
  | _ => csv_record_line result_item_header ++
         String.concat "" (map (fun r => csv_record_line (result_item_fields r)) rs)
  end.

(** The number of line feeds of a text: the lines it prints. *)
Fixpoint count_nl (s : string) : nat :=
  match s with
  | EmptyString => O
  | String c r => ((if Ascii.eqb c "010" then 1 else 0) + count_nl r)%nat
  end.

(** The hostnames and vendors of a target hold no line feed. *)
Definition target_single_line (t : TargetDetails) : Prop :=
  (forall h, hostname t = Some h -> count_nl h = 0%nat) /\
  (forall v, vendor t = Some v -> count_nl v = 0%nat).

(** RFC 8259, §7: a hex digit of a [\u] escape. *)
Definition hex_value (c : ascii) : option Z :=
  let b := byte_of c in
  if (48 <=? b) && (b <=? 57) then Some (b - 48)
  else if (97 <=? b) && (b <=? 102) then Some (b - 87)
  else if (65 <=? b) && (b <=? 70) then Some (b - 55)
  else None.

(** The UTF-8 bytes of a code point of the Basic Multilingual Plane (no
    surrogate). *)
Definition utf8_of_bmp (cp : Z) : option string :=
  if cp <? 128 then Some (String (ascii_of_nat (Z.to_nat cp)) "")
  else if cp <? 2048 then
    Some (String (ascii_of_nat (Z.to_nat (192 + cp / 64)))
           (String (ascii_of_nat (Z.to_nat (128 + cp mod 64))) ""))
  else if (55296 <=? cp) && (cp <=? 57343) then None
  else
    Some (String (ascii_of_nat (Z.to_nat (224 + cp / 4096)))
           (String (ascii_of_nat (Z.to_nat (128 + (cp / 64) mod 64)))
             (String (ascii_of_nat (Z.to_nat (128 + cp mod 64))) ""))).

Definition prepend (x : string) (o : option (string * string)) : option (string * string) :=
  match o with
  | Some (v, rest) => Some (x ++ v, rest)
  | None => None
  end.

(** RFC 8259, §7: reading the body of a JSON string literal up to its
    closing quote: the decoded text and what follows the quote.  A raw
    control character is refused; [\u] escapes of surrogates are not read. *)
Fixpoint json_read_string (s : string) : option (string * string) :=
  match s with
  | EmptyString => None
  | String c r =>
      if Ascii.eqb c DQ then Some ("", r)
      else if Ascii.eqb c BSLASH then
        match r with
        | EmptyString => None
        | String e r1 =>
            if Ascii.eqb e DQ then prepend (String DQ "") (json_read_string r1)
            else if Ascii.eqb e BSLASH then prepend (String BSLASH "") (json_read_string r1)
            else if Ascii.eqb e "/" then prepend "/" (json_read_string r1)
            else if Ascii.eqb e "b" then prepend (String "008" "") (json_read_string r1)
            else if Ascii.eqb e "f" then prepend (String "012" "") (json_read_string r1)
            else if Ascii.eqb e "n" then prepend (String "010" "") (json_read_string r1)
            else if Ascii.eqb e "r" then prepend (String "013" "") (json_read_string r1)
            else if Ascii.eqb e "t" then prepend (String "009" "") (json_read_string r1)
            else if Ascii.eqb e "u" then
              match r1 with
              | String h1 (String h2 (String h3 (String h4 r5))) =>
                  match hex_value h1, hex_value h2, hex_value h3, hex_value h4 with
                  | Some d1, Some d2, Some d3, Some d4 =>
                      match utf8_of_bmp (4096 * d1 + 256 * d2 + 16 * d3 + d4) with
                      | Some x => prepend x (json_read_string r5)
                      | None => None
                      end
                  | _, _, _, _ => None
                  end
              | _ => None
              end
            else None
        end
      else if byte_of c <? 32 then None
      else prepend (String c "") (json_read_string r)
  end.

(** RFC 4180 reading of one record ended by a line feed: the states of the
    reader at a field's start, inside an unquoted field, inside a quoted
    field, and after a quote inside a quoted field. *)
Inductive csv_state : Type :=
| FieldStart
| Unquoted
| InQuotes
| AfterQuote.

Definition cons_field (cur : string) (o : option (list string * string))
  : option (list string * string) :=
  match o with
  | Some (fields, rest) => Some (cur :: fields, rest)
  | None => None
  end.

Fixpoint csv_read_record (st : csv_state) (cur : string) (s : string)
  : option (list string * string) :=
  match s with
  | EmptyString => None
  | String c r =>
      let sep := Ascii.eqb c "," in
      let eol := Ascii.eqb c "010" in
      let quote := Ascii.eqb c DQ in
      match st with
      | FieldStart =>
          if quote then csv_read_record InQuotes cur r
          else if sep then cons_field cur (csv_read_record FieldStart "" r)
          else if eol then Some ([cur], r)
          else csv_read_record Unquoted (cur ++ String c "") r
      | Unquoted =>
          if sep then cons_field cur (csv_read_record FieldStart "" r)
          else if eol then Some ([cur], r)
          else if quote then None
          else csv_read_record Unquoted (cur ++ String c "") r
      | InQuotes =>
          if quote then csv_read_record AfterQuote cur r
          else csv_read_record InQuotes (cur ++ String c "") r
      | AfterQuote =>
          if quote then csv_read_record InQuotes (cur ++ String DQ "") r
          else if sep then cons_field cur (csv_read_record FieldStart "" r)
          else if eol then Some ([cur], r)
          else None
      end
  end.

(** All the records of a text ([fuel] bounds their number). *)
Fixpoint csv_read_records (fuel : nat) (s : string) : option (list (list string)) :=
  match s with
  | EmptyString => Some []
  | _ =>
      match fuel with
      | O => None
      | S f =>
          match csv_read_record FieldStart "" s with
          | Some (fields, rest) =>
              match csv_read_records f rest with
              | Some records => Some (fields :: records)
              | None => None
              end
          | None => None
          end
      end
  end.

(** ** Sample values *)

Definition net_a : IpNetwork := V4 {| v4_addr := 3232235776; v4_prefix := 30 |}.
Definition net_b : IpNetwork := V4 {| v4_addr := 167772160; v4_prefix := 30 |}.
Definition net_v6 : Ipv6Network := {| v6_addr := 0; v6_prefix := 64 |}.

Definition mac_1 : MacAddr := mk_mac Byte.x00 Byte.x1b Byte.x21 Byte.x3a Byte.x4c Byte.x5d.
Definition mac_2 : MacAddr := mk_mac Byte.xaa Byte.xbb Byte.xcc Byte.xdd Byte.xee Byte.xff.

(** Interfaces: loopback, down, without MAC, IPv6 only, and two usable ones. *)
Definition if_lo : NetworkInterface :=
  {| name := "lo"; index := 1; mac := Some mac_1;
     ips := [V4 {| v4_addr := 2130706433; v4_prefix := 8 |}]; flags := 73 |}.
Definition if_down : NetworkInterface :=
  {| name := "eth9"; index := 2; mac := Some mac_1; ips := [net_a]; flags := 4098 |}.
Definition if_nomac : NetworkInterface :=
  {| name := "tun0"; index := 3; mac := None; ips := [net_a]; flags := 4305 |}.
Definition if_v6only : NetworkInterface :=
  {| name := "eth1"; index := 4; mac := Some mac_2; ips := [V6 net_v6]; flags := 4163 |}.
Definition if_eth0 : NetworkInterface :=
  {| name := "eth0"; index := 5; mac := Some mac_1; ips := [V6 net_v6; net_a]; flags := 4163 |}.
Definition if_wlan0 : NetworkInterface :=
  {| name := "wlan0"; index := 6; mac := Some mac_2; ips := [net_b]; flags := 4163 |}.

Definition sample_summary : ResponseSummary :=
  {| packet_count := 12; arp_count := 2; duration_ms := 1500 |}.

Definition opts_resolving : ScanOptions :=
  {| resolve_hostname := true; source_ipv4 := None; destination_mac := None |}.
Definition opts_not_resolving : ScanOptions :=
  {| resolve_hostname := false; source_ipv4 := None; destination_mac := None |}.

(** Two hosts answering for 192.168.1.1, and one for 192.168.1.20. *)
Definition target_a : TargetDetails :=
  {| ipv4 := 3232235777; target_mac := mac_1; hostname := Some "router"; vendor := None |}.
Definition target_b : TargetDetails :=
  {| ipv4 := 3232235777; target_mac := mac_2; hostname := None; vendor := Some "Acme" |}.
Definition target_c : TargetDetails :=
  {| ipv4 := 3232235796; target_mac := mac_2; hostname := Some "printer.lan.example.org";
     vendor := Some "Example Devices Inc." |}.

(** * Properties *)

(** ** Network size *)

Lemma fold_network_size_ipv6 (ipv4_size : Ipv4Network -> Z) (ipv6_size : Ipv6Network -> Z) :
  forall l total n, In (V6 n) l ->
  fold_network_size ipv4_size ipv6_size total l =
  Exit 1 ("IPv6 networks are not supported by the ARP protocol" ++ nl).
Proof.
  induction l as [|a l IH]; intros total n Hin; [destruct Hin|].
  destruct a as [n4|n6]; simpl.
  - destruct Hin as [Heq|Hin]; [discriminate|]. eapply IH; eauto.
  - reflexivity.
Qed.

Lemma fold_network_size_v4 (ipv4_size : Ipv4Network -> Z) (ipv6_size : Ipv6Network -> Z)
  (Hu32 : forall n, 0 <= ipv4_size n < 2 ^ 32) :
  forall l total,
  (forall n, ~ In (V6 n) l) ->
  0 <= total -> total + 2 ^ 32 * Z.of_nat (List.length l) <= 2 ^ 128 ->
  fold_network_size ipv4_size ipv6_size total l =
  Ret (total + ipv4_total ipv4_size l).
Proof.
  induction l as [|a l IH]; intros total Hno Ht Hb; simpl.
  - f_equal; lia.
  - simpl List.length in Hb. rewrite Nat2Z.inj_succ in Hb.
    destruct a as [n4|n6].
    + specialize (Hu32 n4). simpl.
      unfold u128_add. rewrite Z.mod_small by lia. rewrite IH.
      * f_equal; lia.
      * intros n Hin. apply (Hno n). right; exact Hin.
      * lia.
      * lia.
    + exfalso. apply (Hno n6). left; reflexivity.
Qed.

(** ** Default interface *)

Lemma default_interface_filter_spec i :
  default_interface_filter i = true <-> qualifies_as_default i.
Proof.
  unfold default_interface_filter, qualifies_as_default.
  destruct (mac i) as [m|]; [|split; [discriminate|intros [H _]; congruence]].
  destruct (ips i) as [|ip ips'] eqn:Hips; cbn [is_empty orb].
  - split; [discriminate|]. intros (_ & H & _). congruence.
  - destruct (is_up i) eqn:Hup; cbn [negb orb];
      [|split; [discriminate|intros (_ & _ & H & _); discriminate]].
    destruct (is_loopback i) eqn:Hlo; cbn [orb];
      [split; [discriminate|intros (_ & _ & _ & H & _); discriminate]|].
    destruct (find is_ipv4 (ip :: ips')) as [x|] eqn:Hf.
    + split; [|reflexivity]. intros _.
      repeat split; try congruence.
      apply find_some in Hf. exists x. exact Hf.
    + split; [discriminate|]. intros (_ & _ & _ & _ & x & Hin & Hx).
      rewrite (find_none _ _ Hf x Hin) in Hx. discriminate.
Qed.

Lemma find_first {A} (f : A -> bool) :
  forall l x, find f l = Some x <->
  exists pre post, l = (pre ++ x :: post)%list /\ f x = true /\
                   Forall (fun y => f y = false) pre.
Proof.
  induction l as [|a l IH]; intros x; simpl.
  - split; [discriminate|]. intros (pre & post & H & _).
    destruct pre; discriminate.
  - destruct (f a) eqn:Ha; split.
    + intros H; injection H as <-. exists [], l. auto.
    + intros (pre & post & Hl & Hx & Hpre).
      destruct pre as [|b pre]; simpl in Hl; injection Hl as <- Hl; [reflexivity|].
      inversion Hpre; congruence.
    + intros H. apply IH in H as (pre & post & -> & Hx & Hpre).
      exists (a :: pre), post. auto.
    + intros (pre & post & Hl & Hx & Hpre).
      destruct pre as [|b pre]; simpl in Hl; injection Hl as <- Hl; [congruence|].
      inversion Hpre; subst. apply IH. eauto.
Qed.

Lemma find_none_iff {A} (f : A -> bool) :
  forall l, find f l = None <-> Forall (fun y => f y = false) l.
Proof.
  induction l as [|a l IH]; simpl; [split; auto|].
  destruct (f a) eqn:Ha; split.
  - discriminate.
  - intros H; inversion H; congruence.
  - intros H; constructor; [assumption|apply IH, H].
  - intros H; inversion H; apply IH; assumption.
Qed.

Lemma not_qualifies i : default_interface_filter i = false <-> ~ qualifies_as_default i.
Proof.
  rewrite <- default_interface_filter_spec.
  destruct (default_interface_filter i); split; congruence.
Qed.

(** ** Sorting by IPv4 *)

Lemma insert_by_ipv4_perm t : forall l, Permutation (insert_by_ipv4 t l) (t :: l).
Proof.
  induction l as [|u l IH]; simpl; [reflexivity|].
  destruct (ipv4 t <=? ipv4 u); [reflexivity|].
  rewrite IH. apply perm_swap.
Qed.

Lemma sort_by_ipv4_perm : forall l, Permutation (sort_by_ipv4 l) l.
Proof.
  induction l as [|t l IH]; simpl; [reflexivity|].
  rewrite insert_by_ipv4_perm, IH. reflexivity.
Qed.

Lemma insert_by_ipv4_hdrel x t :
  forall l, ipv4 x <= ipv4 t -> HdRel ipv4_le x l -> HdRel ipv4_le x (insert_by_ipv4 t l).
Proof.
  intros [|u l] Hxt Hx; simpl.
  - constructor. exact Hxt.
  - destruct (ipv4 t <=? ipv4 u); constructor; [exact Hxt|].
    inversion Hx; assumption.
Qed.

Lemma insert_by_ipv4_sorted t :
  forall l, Sorted ipv4_le l -> Sorted ipv4_le (insert_by_ipv4 t l).
Proof.
  induction l as [|u l IH]; intros Hs; simpl.
  - repeat constructor.
  - destruct (ipv4 t <=? ipv4 u) eqn:Htu.
    + constructor; [exact Hs|]. constructor. unfold ipv4_le. lia.
    + apply Sorted_inv in Hs as [Hl Hu]. constructor; [apply IH, Hl|].
      apply insert_by_ipv4_hdrel; [lia|exact Hu].
Qed.

Lemma sort_by_ipv4_sorted : forall l, Sorted ipv4_le (sort_by_ipv4 l).
Proof.
  induction l as [|t l IH]; simpl; [constructor|].
  apply insert_by_ipv4_sorted, IH.
Qed.

(** Stability: among targets of one IPv4 address the input order is kept. *)
Lemma insert_by_ipv4_filter k t : forall l,
  filter (fun u => ipv4 u =? k) (insert_by_ipv4 t l) =
  if ipv4 t =? k then t :: filter (fun u => ipv4 u =? k) l
  else filter (fun u => ipv4 u =? k) l.
Proof.
  induction l as [|u l IH]; simpl.
  - destruct (ipv4 t =? k); reflexivity.
  - destruct (ipv4 t <=? ipv4 u) eqn:Htu; simpl.
    + destruct (ipv4 t =? k); reflexivity.
    + rewrite IH. destruct (ipv4 u =? k) eqn:Hu, (ipv4 t =? k) eqn:Ht; try reflexivity.
      apply Z.eqb_eq in Hu, Ht. lia.
Qed.

Lemma sort_by_ipv4_filter k : forall l,
  filter (fun u => ipv4 u =? k) (sort_by_ipv4 l) = filter (fun u => ipv4 u =? k) l.
Proof.
  induction l as [|t l IH]; simpl; [reflexivity|].
  rewrite insert_by_ipv4_filter, IH. reflexivity.
Qed.

(** Two lists strictly ordered by IPv4 that are permutations of each other
    are equal. *)
Lemma strictly_sorted_perm_eq : forall l1 l2,
  StronglySorted (fun a b => ipv4 a < ipv4 b) l1 ->
  StronglySorted (fun a b => ipv4 a < ipv4 b) l2 ->
  Permutation l1 l2 -> l1 = l2.
Proof.
  induction l1 as [|a l1 IH]; intros l2 H1 H2 Hp.
  - symmetry. apply Permutation_nil, Hp.
  - destruct l2 as [|b l2]; [apply Permutation_sym, Permutation_nil in Hp; discriminate|].
    apply StronglySorted_inv in H1 as [H1 Ha].
    apply StronglySorted_inv in H2 as [H2 Hb].
    assert (a = b) as <-.
    { assert (Ha2 : In a (b :: l2)) by (eapply Permutation_in; [exact Hp|left; reflexivity]).
      assert (Hb1 : In b (a :: l1))
        by (eapply Permutation_in; [apply Permutation_sym, Hp|left; reflexivity]).
      destruct Ha2 as [|Ha2]; [congruence|].
      destruct Hb1 as [|Hb1]; [congruence|].
      rewrite Forall_forall in Ha, Hb.
      specialize (Ha b Hb1). specialize (Hb a Ha2). lia. }
    f_equal. apply IH; [exact H1|exact H2|].
    eapply Permutation_cons_inv; exact Hp.
Qed.

Lemma sorted_distinct_strict : forall l,
  Sorted ipv4_le l -> NoDup (map ipv4 l) ->
  StronglySorted (fun a b => ipv4 a < ipv4 b) l.
Proof.
  intros l Hs Hd.
  apply Sorted_StronglySorted in Hs; [|intros x y z; unfold ipv4_le; lia].
  induction Hs as [|a l Hs IH Ha]; constructor.
  - inversion Hd; apply IH; assumption.
  - simpl in Hd. inversion Hd as [|? ? Hnot _]; subst.
    rewrite Forall_forall in Ha |- *. intros b Hb.
    specialize (Ha b Hb). unfold ipv4_le in Ha.
    assert (ipv4 a <> ipv4 b).
    { intros Heq. apply Hnot. rewrite Heq. apply in_map, Hb. }
    lia.
Qed.

Lemma sort_by_ipv4_perm_eq : forall l1 l2,
  Permutation l1 l2 -> NoDup (map ipv4 l1) -> sort_by_ipv4 l1 = sort_by_ipv4 l2.
Proof.
  intros l1 l2 Hp Hd.
  assert (Hd2 : NoDup (map ipv4 l2)) by (eapply Permutation_NoDup; [apply Permutation_map, Hp|exact Hd]).
  apply strictly_sorted_perm_eq.
  - apply sorted_distinct_strict; [apply sort_by_ipv4_sorted|].
    eapply Permutation_NoDup; [|exact Hd].
    apply Permutation_map, Permutation_sym, sort_by_ipv4_perm.
  - apply sorted_distinct_strict; [apply sort_by_ipv4_sorted|].
    eapply Permutation_NoDup; [|exact Hd2].
    apply Permutation_map, Permutation_sym, sort_by_ipv4_perm.
  - rewrite !sort_by_ipv4_perm. exact Hp.
Qed.

(** ** Strings and UTF-8 *)

Lemma string_app_assoc : forall a b c : string, a ++ (b ++ c) = (a ++ b) ++ c.
Proof. induction a as [|x a IH]; intros; simpl; [reflexivity|]. rewrite IH; reflexivity. Qed.

(** Reassociate string appends to the right. *)
Ltac app_norm := repeat rewrite <- string_app_assoc.

Lemma string_app_nil_r : forall a : string, a ++ "" = a.
Proof. induction a as [|x a IH]; simpl; [reflexivity|]. rewrite IH; reflexivity. Qed.

Lemma string_length_app : forall a b : string,
  String.length (a ++ b) = (String.length a + String.length b)%nat.
Proof. induction a as [|x a IH]; intros; simpl; [reflexivity|]. rewrite IH; reflexivity. Qed.

Lemma ascii_only_app : forall a b, ascii_only (a ++ b) = ascii_only a && ascii_only b.
Proof.
  induction a as [|x a IH]; intros b; simpl; [reflexivity|].
  rewrite IH. apply andb_assoc.
Qed.

Lemma ascii_only_utf8_valid : forall s, ascii_only s = true -> utf8_valid s = true.
Proof.
  induction s as [|c r IH]; simpl; [reflexivity|].
  intros H. apply andb_true_iff in H as [Hc Hr]. rewrite Hc. apply IH, Hr.
Qed.

Lemma utf8_valid_app : forall n a b, (String.length a <= n)%nat ->
  utf8_valid a = true -> utf8_valid b = true -> utf8_valid (a ++ b) = true.
Proof.
  induction n as [|n IH]; intros a b Hn Ha Hb;
    destruct a as [|c r]; simpl in Hn; try lia; try exact Hb.
  change (String c r ++ b) with (String c (r ++ b)).
  cbn [utf8_valid] in Ha |- *.
  destruct (byte_of c <? 128); [apply IH; auto; lia|].
  destruct ((194 <=? byte_of c) && (byte_of c <=? 223)).
  { destruct r as [|c1 r1]; [discriminate|]. cbn [String.append] in Hn |- *.
    apply andb_true_iff in Ha as [H1 H2]. rewrite H1. apply IH; auto. simpl in Hn. lia. }
  destruct ((224 <=? byte_of c) && (byte_of c <=? 239)).
  { destruct r as [|c1 [|c2 r2]]; try discriminate. cbn [String.append] in Hn |- *.
    apply andb_true_iff in Ha as [H1 H2]. rewrite H1. apply IH; auto. simpl in Hn. lia. }
  destruct ((240 <=? byte_of c) && (byte_of c <=? 244)); [|discriminate].
  destruct r as [|c1 [|c2 [|c3 r3]]]; try discriminate. cbn [String.append] in Hn |- *.
  apply andb_true_iff in Ha as [H1 H2]. rewrite H1. apply IH; auto. simpl in Hn. lia.
Qed.

Lemma utf8_valid_app' a b :
  utf8_valid a = true -> utf8_valid b = true -> utf8_valid (a ++ b) = true.
Proof. apply (utf8_valid_app (String.length a)). lia. Qed.

Lemma byte_of_bound c : 0 <= byte_of c < 256.
Proof. unfold byte_of. pose proof (nat_ascii_bounded c). lia. Qed.

Lemma eqb_DQ_byte c : Ascii.eqb c DQ = true -> byte_of c = 34.
Proof. intros H. apply Ascii.eqb_eq in H. subst. reflexivity. Qed.

Lemma not_DQ_high c : 128 <= byte_of c -> Ascii.eqb c DQ = false.
Proof.
  intros H. destruct (Ascii.eqb c DQ) eqn:E; [|reflexivity].
  apply eqb_DQ_byte in E. lia.
Qed.

Lemma in_range_high c lo hi : 128 <= lo -> in_range c lo hi = true -> 128 <= byte_of c.
Proof. unfold in_range. intros H Hr. apply andb_true_iff in Hr as [H1 _]. lia. Qed.

Lemma in_range_if_high c (b : bool) lo hi :
  128 <= lo -> in_range c (if b then lo else 128) hi = true -> 128 <= byte_of c.
Proof. intros H. destruct b; apply in_range_high; lia. Qed.

Lemma utf8_valid_csv_escape : forall n s, (String.length s <= n)%nat ->
  utf8_valid s = true -> utf8_valid (csv_escape s) = true.
Proof.
  induction n as [|n IH]; intros s Hn Hs;
    destruct s as [|c r]; simpl in Hn; try lia; try reflexivity.
  cbn [csv_escape].
  destruct (byte_of c <? 128) eqn:Hlt.
  - cbn [utf8_valid] in Hs. rewrite Hlt in Hs.
    destruct (Ascii.eqb c DQ) eqn:Hq.
    + apply Ascii.eqb_eq in Hq; subst c.
      change (utf8_valid (csv_escape r) = true). apply IH; auto; lia.
    + cbn [utf8_valid]. rewrite Hlt. apply IH; auto; lia.
  - assert (Hc : 128 <= byte_of c) by (apply Z.ltb_ge; exact Hlt).
    rewrite (not_DQ_high c Hc).
    cbn [utf8_valid] in Hs |- *. rewrite Hlt in Hs |- *.
    destruct ((194 <=? byte_of c) && (byte_of c <=? 223)).
    { destruct r as [|c1 r1]; [discriminate|].
      apply andb_true_iff in Hs as [H1 H2].
      cbn [csv_escape].
      rewrite (not_DQ_high c1) by (eapply in_range_high; [|exact H1]; lia).
      cbn [csv_escape]. rewrite H1. simpl in Hn. apply IH; auto; lia. }
    destruct ((224 <=? byte_of c) && (byte_of c <=? 239)).
    { destruct r as [|c1 [|c2 r2]]; try discriminate.
      apply andb_true_iff in Hs as [H12 H3]. apply andb_true_iff in H12 as [H1 H2].
      cbn [csv_escape].
      rewrite (not_DQ_high c1) by (eapply in_range_if_high; [|exact H1]; lia).
      cbn [csv_escape].
      rewrite (not_DQ_high c2) by (eapply in_range_high; [|exact H2]; lia).
      cbn [csv_escape]. rewrite H1, H2. simpl in Hn. apply IH; auto; lia. }
    destruct ((240 <=? byte_of c) && (byte_of c <=? 244)); [|discriminate].
    destruct r as [|c1 [|c2 [|c3 r3]]]; try discriminate.
    apply andb_true_iff in Hs as [H123 H4]. apply andb_true_iff in H123 as [H12 H3].
    apply andb_true_iff in H12 as [H1 H2].
    cbn [csv_escape].
    rewrite (not_DQ_high c1) by (eapply in_range_if_high; [|exact H1]; lia).
    cbn [csv_escape].
    rewrite (not_DQ_high c2) by (eapply in_range_high; [|exact H2]; lia).
    cbn [csv_escape].
    rewrite (not_DQ_high c3) by (eapply in_range_high; [|exact H3]; lia).
    cbn [csv_escape]. rewrite H1, H2, H3. simpl in Hn. apply IH; auto; lia.
Qed.

Lemma utf8_valid_csv_field s : utf8_valid s = true -> utf8_valid (csv_field s) = true.
Proof.
  intros Hs. unfold csv_field. destruct (csv_needs_quotes s); [|exact Hs].
  change (utf8_valid (csv_escape s ++ String DQ "") = true).
  apply utf8_valid_app'; [|reflexivity].
  apply (utf8_valid_csv_escape (String.length s)); auto.
Qed.

Lemma string_concat_cons (sep x : string) xs :
  String.concat sep (x :: xs) = match xs with [] => x | _ => x ++ sep ++ String.concat sep xs end.
Proof. reflexivity. Qed.

Lemma string_concat_empty_cons x xs :
  String.concat "" (x :: xs) = x ++ String.concat "" xs.
Proof. destruct xs; simpl; [rewrite string_app_nil_r|]; reflexivity. Qed.

Lemma utf8_valid_concat sep : utf8_valid sep = true ->
  forall l, Forall (fun s => utf8_valid s = true) l -> utf8_valid (String.concat sep l) = true.
Proof.
  intros Hsep l Hl. induction Hl as [|x l Hx Hl IH]; [reflexivity|].
  rewrite string_concat_cons. destruct l; [exact Hx|].
  apply utf8_valid_app'; [exact Hx|]. apply utf8_valid_app'; assumption.
Qed.

Lemma utf8_valid_csv_record_line fields :
  Forall (fun s => utf8_valid s = true) fields -> utf8_valid (csv_record_line fields) = true.
Proof.
  intros H. unfold csv_record_line, join. apply utf8_valid_app'; [|reflexivity].
  apply utf8_valid_concat; [reflexivity|].
  rewrite Forall_map. eapply Forall_impl; [|exact H]. apply utf8_valid_csv_field.
Qed.

Lemma ascii_only_dec_aux : forall fuel n acc,
  ascii_only acc = true -> ascii_only (dec_aux fuel n acc) = true.
Proof.
  induction fuel as [|f IH]; intros n acc Hacc; cbn [dec_aux]; [exact Hacc|].
  assert (Hd : ascii_only (String (char_of_digit (n mod 10)) acc) = true).
  { cbn [ascii_only]. rewrite Hacc, andb_true_r. unfold char_of_digit, byte_of.
    pose proof (Z.mod_pos_bound n 10 ltac:(lia)).
    rewrite nat_ascii_embedding by lia. apply Z.ltb_lt. lia. }
  destruct (n <? 10); [exact Hd|]. apply IH, Hd.
Qed.

Lemma ascii_only_dec n : ascii_only (dec n) = true.
Proof. apply ascii_only_dec_aux. reflexivity. Qed.

Lemma ascii_only_hex_digit d : 0 <= d < 16 -> ascii_only (String (hex_digit d) "") = true.
Proof.
  intros Hd. cbn [ascii_only]. rewrite andb_true_r. unfold hex_digit, byte_of.
  destruct (d <? 10) eqn:E; apply Z.ltb_lt;
    rewrite nat_ascii_embedding by lia; lia.
Qed.

Lemma ascii_only_hex_byte b : ascii_only (hex_byte b) = true.
Proof.
  unfold hex_byte, hex2. pose proof (Byte.to_nat_bounded b) as Hb.
  set (z := Z.of_nat (Byte.to_nat b)).
  assert (Hz : 0 <= z < 256) by (unfold z; lia).
  assert (H1 : 0 <= Z.shiftr z 4 < 16).
  { rewrite Z.shiftr_div_pow2 by lia. change (2 ^ 4) with 16.
    split; [apply Z.div_pos; lia|apply Z.div_lt_upper_bound; lia]. }
  assert (H2 : 0 <= Z.land z 15 < 16).
  { change 15 with (Z.ones 4). rewrite Z.land_ones by lia.
    apply Z.mod_pos_bound. lia. }
  change (ascii_only (String (hex_digit (Z.shiftr z 4)) "" ++
                      String (hex_digit (Z.land z 15)) "") = true).
  rewrite ascii_only_app, ascii_only_hex_digit, ascii_only_hex_digit; auto.
Qed.

Lemma ascii_only_fmt_ipv4 a : ascii_only (fmt_ipv4 a) = true.
Proof. unfold fmt_ipv4. rewrite !ascii_only_app, !ascii_only_dec. reflexivity. Qed.

Lemma ascii_only_fmt_mac m : ascii_only (fmt_mac m) = true.
Proof. destruct m. unfold fmt_mac. rewrite !ascii_only_app, !ascii_only_hex_byte. reflexivity. Qed.

Lemma to_result_item_valid t : target_strings_valid t ->
  Forall (fun s => utf8_valid s = true) (result_item_fields (to_result_item t)).
Proof.
  intros [Hh Hv]. unfold result_item_fields, to_result_item; simpl.
  repeat constructor.
  - apply ascii_only_utf8_valid, ascii_only_fmt_ipv4.
  - apply ascii_only_utf8_valid, ascii_only_fmt_mac.
  - destruct (hostname t) eqn:E; [apply Hh; reflexivity|reflexivity].
  - destruct (vendor t) eqn:E; [apply Hv; reflexivity|reflexivity].
Qed.

(** ** The CSV writer *)

Lemma csv_serialize_all_after_header : forall rs w,
  wtr_header_written w = true -> wtr_first_len w = Some 4%nat ->
  csv_serialize_all w rs =
  Ret {| wtr_buf := wtr_buf w ++
           String.concat "" (map (fun r => csv_record_line (result_item_fields r)) rs);
         wtr_header_written := true;
         wtr_first_len := Some 4%nat |}.
Proof.
  induction rs as [|r rs IH]; intros [buf hw fl] Hhw Hfl; simpl in Hhw, Hfl; subst.
  - cbn [csv_serialize_all map]. simpl String.concat. rewrite string_app_nil_r. reflexivity.
  - cbn [csv_serialize_all csv_serialize csv_write_record wtr_header_written wtr_first_len].
    simpl Nat.eqb. cbv iota. rewrite IH by reflexivity. cbn [wtr_buf map].
    rewrite string_concat_empty_cons, string_app_assoc. reflexivity.
Qed.

Lemma export_to_csv_text s l : Forall target_strings_valid l ->
  export_to_csv s l = Ret (spec_csv_text (map to_result_item (sort_by_ipv4 l))).
Proof.
  intros Hl.
  assert (Hs : Forall target_strings_valid (sort_by_ipv4 l)).
  { rewrite Forall_forall in Hl |- *. intros t Ht. apply Hl.
    eapply Permutation_in; [apply sort_by_ipv4_perm|exact Ht]. }
  unfold export_to_csv, get_serializable_result. cbn [Ser.results].
  destruct (sort_by_ipv4 l) as [|t ts]; [reflexivity|].
  cbn [map csv_serialize_all csv_serialize csv_write_record csv_writer_new
       wtr_header_written wtr_first_len wtr_buf].
  simpl Nat.eqb. cbv iota.
  rewrite csv_serialize_all_after_header by reflexivity. cbn [wtr_buf].
  set (lines := String.concat "" (map (fun r => csv_record_line (result_item_fields r))
                                      (map to_result_item ts))).
  assert (Hvalid : utf8_valid (("" ++ csv_record_line result_item_header) ++
                   csv_record_line (result_item_fields (to_result_item t)) ++ lines) = true).
  { inversion Hs as [|? ? Ht Hts]; subst.
    apply utf8_valid_app'; [apply utf8_valid_csv_record_line; repeat constructor|].
    apply utf8_valid_app'; [apply utf8_valid_csv_record_line, to_result_item_valid, Ht|].
    apply utf8_valid_concat; [reflexivity|]. rewrite !Forall_map.
    eapply Forall_impl; [|exact Hts]. intros u Hu.
    apply utf8_valid_csv_record_line, to_result_item_valid, Hu. }
  rewrite <- (string_app_assoc _ _ lines). rewrite Hvalid.
  unfold spec_csv_text. cbn [map]. rewrite string_concat_empty_cons. reflexivity.
Qed.

(** ** The JSON and YAML serializers on the exported structs *)

Lemma traverse_sum_map {A B C E : Type} (f : B -> C + E) (g : A -> B) (h : A -> C) :
  (forall x, f (g x) = inl (h x)) ->
  forall l, traverse_sum f (map g l) = inl (map h l).
Proof.
  intros H l. induction l as [|x l IH]; [reflexivity|].
  cbn [map traverse_sum]. rewrite H, IH. reflexivity.
Qed.

Lemma json_ser_global_result g : json_ser (serialize_global_result g) = inl (json_to_string g).
Proof.
  assert (H : traverse_sum json_ser (map serialize_result_item (Ser.results g)) =
              inl (map json_item (Ser.results g))).
  { apply traverse_sum_map. intros r. reflexivity. }
  unfold serialize_global_result. cbn [json_ser traverse_sum]. rewrite H. reflexivity.
Qed.

Lemma to_yaml_global_result g :
  to_yaml (serialize_global_result g) =
  inl (YHash [(YString "packet_count", yaml_unsigned (Ser.packet_count g));
              (YString "arp_count", yaml_unsigned (Ser.arp_count g));
              (YString "duration_ms", yaml_unsigned (Ser.duration_ms g));
              (YString "results",
               YArray (map (fun r =>
                 YHash [(YString "ipv4", YString (Ser.ipv4 r));
                        (YString "mac", YString (Ser.mac r));
                        (YString "hostname", YString (Ser.hostname r));
                        (YString "vendor", YString (Ser.vendor r))]) (Ser.results g)))]).
Proof.
  assert (H : traverse_sum to_yaml (map serialize_result_item (Ser.results g)) =
              inl (map (fun r =>
                 YHash [(YString "ipv4", YString (Ser.ipv4 r));
                        (YString "mac", YString (Ser.mac r));
                        (YString "hostname", YString (Ser.hostname r));
                        (YString "vendor", YString (Ser.vendor r))]) (Ser.results g))).
  { apply traverse_sum_map. intros r. reflexivity. }
  unfold serialize_global_result. cbn [to_yaml traverse_sum]. rewrite H. reflexivity.
Qed.

Lemma yaml_unsigned_prefix level inline n : yaml_val_prefix level inline (yaml_unsigned n) = " ".
Proof. unfold yaml_unsigned. destruct (n <=? i64_max); reflexivity. Qed.

Lemma yaml_unsigned_emit ys level n : yaml_emit_node ys level (yaml_unsigned n) = dec n.
Proof. unfold yaml_unsigned. destruct (n <=? i64_max); reflexivity. Qed.

Lemma yaml_emit_item ys r rest :
  "-" ++ yaml_val_prefix 1 true (yaml_item_tree r) ++ yaml_emit_node ys 1 (yaml_item_tree r) ++ rest =
  "- ipv4: " ++ yaml_str ys (Ser.ipv4 r) ++ nl ++
  "    mac: " ++ yaml_str ys (Ser.mac r) ++ nl ++
  "    hostname: " ++ yaml_str ys (Ser.hostname r) ++ nl ++
  "    vendor: " ++ yaml_str ys (Ser.vendor r) ++ rest.
Proof.
  unfold yaml_item_tree. cbn [yaml_emit_node yaml_val_prefix is_empty orb map fst snd yaml_is_complex].
  change (1 + 1) with 2. change (yaml_indent 2) with "    ".
  change (yaml_str ys "ipv4") with "ipv4". change (yaml_str ys "mac") with "mac".
  change (yaml_str ys "hostname") with "hostname". change (yaml_str ys "vendor") with "vendor".
  rewrite !string_concat_empty_cons. cbn [String.concat]. rewrite string_app_nil_r.
  repeat rewrite <- string_app_assoc. reflexivity.
Qed.

Lemma yaml_emit_items ys : forall rs a,
  a ++ String.concat "" (map (fun x => nl ++ "  " ++ "-" ++ yaml_val_prefix 1 true (yaml_item_tree x) ++
                                       yaml_emit_node ys 1 (yaml_item_tree x)) rs) ++ nl =
  a ++ nl ++ String.concat "" (map (yaml_item ys) rs).
Proof.
  induction rs as [|x rs IH]; intros a; [reflexivity|].
  cbn [map]. rewrite !string_concat_empty_cons. repeat rewrite <- string_app_assoc.
  rewrite yaml_emit_item.
  specialize (IH (a ++ nl ++ "  " ++ "- ipv4: " ++ yaml_str ys (Ser.ipv4 x) ++ nl ++
    "    mac: " ++ yaml_str ys (Ser.mac x) ++ nl ++
    "    hostname: " ++ yaml_str ys (Ser.hostname x) ++ nl ++
    "    vendor: " ++ yaml_str ys (Ser.vendor x))).
  repeat rewrite <- string_app_assoc in IH. rewrite IH.
  unfold yaml_item. repeat rewrite <- string_app_assoc. reflexivity.
Qed.

Lemma serde_yaml_global_result ys g :
  serde_yaml_to_string ys (serialize_global_result g) = inl (yaml_to_string ys g).
Proof.
  unfold serde_yaml_to_string. rewrite to_yaml_global_result. f_equal.
  unfold yaml_to_string. cbn [yaml_emit_node map fst snd].
  rewrite !yaml_unsigned_prefix, !yaml_unsigned_emit.
  change (-1 + 1) with 0. change (yaml_indent 0) with "".
  change (yaml_str ys "packet_count") with "packet_count".
  change (yaml_str ys "arp_count") with "arp_count".
  change (yaml_str ys "duration_ms") with "duration_ms".
  change (yaml_str ys "results") with "results".
  cbn [yaml_is_complex]. rewrite !string_concat_empty_cons.
  change (String.concat "" (@nil string)) with "".
  change (map (fun r => YHash _) (Ser.results g)) with (map yaml_item_tree (Ser.results g)).
  destruct (Ser.results g) as [|r rs].
  - cbn [map yaml_val_prefix is_empty orb yaml_emit_node].
    repeat rewrite <- string_app_assoc. reflexivity.
  - cbn [map yaml_val_prefix is_empty orb yaml_emit_node].
    rewrite string_concat_empty_cons.
    change (0 + 1) with 1. change (yaml_indent 1) with "  ".
    repeat rewrite <- string_app_assoc. change ("" ++ nl) with nl.
    rewrite map_map. cbv beta. rewrite yaml_emit_item, yaml_emit_items. unfold yaml_item.
    repeat rewrite <- string_app_assoc. reflexivity.
Qed.

Lemma export_to_json_text s l :
  export_to_json s l = Ret (json_to_string (get_serializable_result s (sort_by_ipv4 l))).
Proof. unfold export_to_json. rewrite json_ser_global_result. reflexivity. Qed.

Lemma export_to_yaml_text ys s l :
  export_to_yaml ys s l = Ret (yaml_to_string ys (get_serializable_result s (sort_by_ipv4 l))).
Proof. unfold export_to_yaml. rewrite serde_yaml_global_result. reflexivity. Qed.

(** ** Column widths and padding *)

Lemma char_count_app : forall a b, char_count (a ++ b) = (char_count a + char_count b)%nat.
Proof.
  induction a as [|c a IH]; intros b; simpl; [reflexivity|].
  rewrite IH. destruct (is_continuation c); reflexivity.
Qed.

Lemma char_count_le_length : forall s, (char_count s <= String.length s)%nat.
Proof.
  induction s as [|c s IH]; simpl; [lia|].
  destruct (is_continuation c); lia.
Qed.

Lemma char_count_repeat fill n : is_continuation fill = false ->
  char_count (repeat_char fill n) = n.
Proof. intros H. induction n as [|n IH]; simpl; [reflexivity|]. rewrite H, IH. reflexivity. Qed.

Lemma char_count_pad_with fill s w : is_continuation fill = false ->
  (char_count s <= w)%nat -> char_count (pad_left_with fill s w) = w.
Proof.
  intros Hf Hw. unfold pad_left_with. rewrite char_count_app, char_count_repeat by exact Hf.
  lia.
Qed.

Lemma char_count_pad s w : (char_count s <= w)%nat -> char_count (pad s w) = w.
Proof. apply char_count_pad_with. reflexivity. Qed.

Lemma fold_max_shift : forall (xs : list nat) h x,
  fold_right Nat.max (Nat.max h x) xs = Nat.max x (fold_right Nat.max h xs).
Proof. induction xs as [|y xs IH]; intros h x; simpl; [lia|]. rewrite IH. lia. Qed.

Lemma fold_max_ge_init : forall (xs : list nat) h, (h <= fold_right Nat.max h xs)%nat.
Proof. induction xs as [|y xs IH]; intros h; simpl; [lia|]. specialize (IH h). lia. Qed.

Lemma fold_max_ge_in : forall (xs : list nat) h x, In x xs -> (x <= fold_right Nat.max h xs)%nat.
Proof.
  induction xs as [|y xs IH]; intros h x Hin; [destruct Hin|].
  destruct Hin as [<-|Hin]; simpl; [lia|]. specialize (IH h x Hin). lia.
Qed.

Lemma fold_max_perm : forall (xs ys : list nat) h,
  Permutation xs ys -> fold_right Nat.max h xs = fold_right Nat.max h ys.
Proof.
  intros xs ys h Hp. induction Hp; simpl; try lia.
Qed.

Lemma column_widths_from_max : forall l h v,
  column_widths_from h v l =
  (fold_right Nat.max h (map String.length (present_hostnames l)),
   fold_right Nat.max v (map String.length (present_vendors l))).
Proof.
  induction l as [|t l IH]; intros h v; simpl; [reflexivity|].
  rewrite IH. unfold present_hostnames, present_vendors. simpl.
  destruct (hostname t) as [hn|], (vendor t) as [vn|]; simpl;
    f_equal; try (rewrite <- fold_max_shift; f_equal;
      match goal with |- context [Nat.ltb ?a ?b] => destruct (Nat.ltb_spec a b) end; lia).
Qed.

Lemma column_widths_spec l :
  column_widths (sort_by_ipv4 l) = (spec_hostname_width l, spec_vendor_width l).
Proof.
  unfold column_widths, spec_hostname_width, spec_vendor_width.
  rewrite column_widths_from_max. f_equal; apply fold_max_perm, Permutation_map;
    apply Permutation_flat_map, sort_by_ipv4_perm.
Qed.

Lemma hostname_cell_fits o t l : In t l ->
  (char_count (hostname_text o t) <= spec_hostname_width l)%nat.
Proof.
  intros Hin. unfold hostname_text, spec_hostname_width.
  destruct (hostname t) as [h|] eqn:Eh.
  - eapply Nat.le_trans; [apply char_count_le_length|].
    apply fold_max_ge_in, in_map, in_flat_map. exists t. rewrite Eh. split; [exact Hin|left; reflexivity].
  - pose proof (fold_max_ge_init (map String.length (present_hostnames l)) 15).
    destruct (negb (resolve_hostname o)); simpl; lia.
Qed.

Lemma vendor_cell_fits t l : In t l ->
  (char_count (vendor_text t) <= spec_vendor_width l)%nat.
Proof.
  intros Hin. unfold vendor_text, spec_vendor_width.
  destruct (vendor t) as [v|] eqn:Ev.
  - eapply Nat.le_trans; [apply char_count_le_length|].
    apply fold_max_ge_in, in_map, in_flat_map. exists t. rewrite Ev. split; [exact Hin|left; reflexivity].
  - simpl. lia.
Qed.

Lemma display_scan_results_shape fmt_seconds s l o :
  display_scan_results fmt_seconds s l o =
  (if negb (is_empty l) then table_header (spec_hostname_width l) (spec_vendor_width l) else "") ++
  String.concat "" (map (table_row o (spec_hostname_width l) (spec_vendor_width l))
                        (sort_by_ipv4 l)) ++
  nl ++ "ARP scan finished, " ++ target_count_text (List.length l) ++
  " in " ++ fmt_seconds (duration_ms s) ++ " seconds" ++ nl ++
  packet_count_text (packet_count s) ++ arp_count_text (arp_count s) ++ nl ++ nl.
Proof.
  unfold display_scan_results. rewrite column_widths_spec.
  rewrite (Permutation_length (sort_by_ipv4_perm l)).
  assert (He : is_empty (sort_by_ipv4 l) = is_empty l).
  { pose proof (Permutation_length (sort_by_ipv4_perm l)) as Hlen.
    destruct (sort_by_ipv4 l), l; simpl in Hlen; try discriminate; reflexivity. }
  rewrite He. reflexivity.
Qed.

(** * Claims *)

(** ** C1 *)

(** C1: for any list of networks that contains an IPv6 network, at any
    position, [compute_network_size] writes "IPv6 networks are not
    supported by the ARP protocol" to stderr and exits with status 1. *)
Theorem compute_network_size_ipv6_exits
  (ipv4_size : Ipv4Network -> Z) (ipv6_size : Ipv6Network -> Z)
  (ip_networks : list IpNetwork) (Hv6 : exists n, In (V6 n) ip_networks) :
  compute_network_size ipv4_size ipv6_size ip_networks =
  Exit 1 ("IPv6 networks are not supported by the ARP protocol" ++ nl).
Proof.
  destruct Hv6 as [n Hn]. unfold compute_network_size.
  exact (fold_network_size_ipv6 ipv4_size ipv6_size ip_networks 0 n Hn).
Qed.

Lemma compute_network_size_ipv6_exits_witness :
  compute_network_size ipv4_size_of_prefix ipv6_size_of_prefix [net_a; V6 net_v6; net_b] =
  Exit 1 ("IPv6 networks are not supported by the ARP protocol" ++ nl).
Proof.
  apply compute_network_size_ipv6_exits. exists net_v6. right; left; reflexivity.
Defined.

(** ** C4 *)

(** C4: for a list without IPv6 network, [compute_network_size] returns the
    arithmetic sum of the IPv4 sizes (each a [u32]; the slice length is a
    [usize], so the [u128] total cannot wrap). *)
Theorem compute_network_size_ipv4_sum
  (ipv4_size : Ipv4Network -> Z) (ipv6_size : Ipv6Network -> Z)
  (Hu32 : forall n, 0 <= ipv4_size n < 2 ^ 32)
  (ip_networks : list IpNetwork)
  (Hlen : Z.of_nat (List.length ip_networks) < 2 ^ 64)
  (Hno6 : forall n, ~ In (V6 n) ip_networks) :
  compute_network_size ipv4_size ipv6_size ip_networks =
  Ret (ipv4_total ipv4_size ip_networks).
Proof.
  unfold compute_network_size.
  assert (Hb : 0 + 2 ^ 32 * Z.of_nat (List.length ip_networks) <= 2 ^ 128).
  { change (2 ^ 64) with 18446744073709551616 in Hlen.
    change (2 ^ 32) with 4294967296. change (2 ^ 128) with 340282366920938463463374607431768211456.
    lia. }
  rewrite (fold_network_size_v4 ipv4_size ipv6_size Hu32 ip_networks 0 Hno6 (Z.le_refl 0) Hb).
  reflexivity.
Qed.

Lemma compute_network_size_ipv4_sum_witness :
  compute_network_size ipv4_size_of_prefix ipv6_size_of_prefix [] = Ret 0 /\
  compute_network_size ipv4_size_of_prefix ipv6_size_of_prefix [net_a; net_b] = Ret 8.
Proof.
  split.
  - rewrite (compute_network_size_ipv4_sum ipv4_size_of_prefix ipv6_size_of_prefix
               (fun n => Z.mod_pos_bound (2 ^ (32 - v4_prefix n)) (2 ^ 32) eq_refl) []); [reflexivity|simpl; lia|].
    intros n H; destruct H.
  - rewrite (compute_network_size_ipv4_sum ipv4_size_of_prefix ipv6_size_of_prefix
               (fun n => Z.mod_pos_bound (2 ^ (32 - v4_prefix n)) (2 ^ 32) eq_refl) [net_a; net_b]); [reflexivity|simpl; lia|].
    intros n [H|[H|H]]; try discriminate; destruct H.
Defined.

(** ** C2 *)

(** C2: [select_default_interface] returns the first interface, in the
    given order, that has a MAC address, at least one IP, is up, is not
    loopback and has an IPv4 address; it returns nothing when none does. *)
Theorem select_default_interface_first_qualifying (interfaces : list NetworkInterface) :
  (forall i, select_default_interface interfaces = Some i <->
     exists pre post, interfaces = (pre ++ i :: post)%list /\
       qualifies_as_default i /\ Forall (fun j => ~ qualifies_as_default j) pre) /\
  (select_default_interface interfaces = None <->
     Forall (fun j => ~ qualifies_as_default j) interfaces).
Proof.
  unfold select_default_interface. split.
  - intros i. rewrite find_first. split.
    + intros (pre & post & Hl & Hi & Hpre). exists pre, post.
      split; [exact Hl|]. split; [apply default_interface_filter_spec, Hi|].
      eapply Forall_impl; [|exact Hpre]. intros j Hj. apply not_qualifies, Hj.
    + intros (pre & post & Hl & Hi & Hpre). exists pre, post.
      split; [exact Hl|]. split; [apply default_interface_filter_spec, Hi|].
      eapply Forall_impl; [|exact Hpre]. intros j Hj. apply not_qualifies, Hj.
  - rewrite find_none_iff. split; intros H; eapply Forall_impl; try exact H;
      intros j Hj; apply not_qualifies, Hj.
Qed.

Lemma select_default_interface_first_qualifying_witness :
  select_default_interface [if_lo; if_down; if_nomac; if_v6only; if_eth0; if_wlan0] = Some if_eth0 /\
  select_default_interface [if_lo; if_down; if_nomac; if_v6only] = None.
Proof.
  split.
  - apply (proj1 (select_default_interface_first_qualifying _) if_eth0).
    exists [if_lo; if_down; if_nomac; if_v6only], [if_wlan0]. split; [reflexivity|].
    split; [apply default_interface_filter_spec; vm_compute; reflexivity|].
    repeat constructor; intros H; apply default_interface_filter_spec in H;
      vm_compute in H; discriminate H.
  - apply (proj2 (select_default_interface_first_qualifying _)).
    repeat constructor; intros H; apply default_interface_filter_spec in H;
      vm_compute in H; discriminate H.
Defined.

(** ** C3 *)

(** C3 (as stated, refuted): two targets with the same IPv4 address keep
    their input order, so reordering the input changes the exports. *)
Lemma exports_order_depends_on_input_order :
  Permutation [target_a; target_b] [target_b; target_a] /\
  export_to_json sample_summary [target_a; target_b] <>
  export_to_json sample_summary [target_b; target_a] /\
  export_to_csv sample_summary [target_a; target_b] <>
  export_to_csv sample_summary [target_b; target_a].
Proof.
  split; [apply perm_swap|].
  split; intros H; vm_compute in H; discriminate H.
Qed.

(** C3 (amended): every export serializes the targets stably sorted by
    ascending IPv4: the sorted list is ordered, a permutation of the input,
    and keeps the targets of one IPv4 address in their input order; the
    JSON, the YAML and the CSV text list exactly these records in this
    order (the CSV on targets whose strings are UTF-8, as every Rust
    [String] is); and when the IPv4 addresses are pairwise distinct, a
    reordered input gives the same three texts. *)
Theorem exports_sorted_by_ipv4 (s : ResponseSummary) (l1 l2 : list TargetDetails)
  (Hperm : Permutation l1 l2) :
  Sorted ipv4_le (sort_by_ipv4 l1) /\ Permutation (sort_by_ipv4 l1) l1 /\
  (forall k, filter (fun t => ipv4 t =? k) (sort_by_ipv4 l1) =
             filter (fun t => ipv4 t =? k) l1) /\
  export_to_json s l1 = Ret (json_to_string (get_serializable_result s (sort_by_ipv4 l1))) /\
  (forall yaml_scalar, export_to_yaml yaml_scalar s l1 =
     Ret (yaml_to_string yaml_scalar (get_serializable_result s (sort_by_ipv4 l1)))) /\
  (Forall target_strings_valid l1 ->
   export_to_csv s l1 = Ret (spec_csv_text (map to_result_item (sort_by_ipv4 l1)))) /\
  (NoDup (map ipv4 l1) ->
   export_to_json s l1 = export_to_json s l2 /\
   (forall yaml_scalar, export_to_yaml yaml_scalar s l1 = export_to_yaml yaml_scalar s l2) /\
   export_to_csv s l1 = export_to_csv s l2).
Proof.
  split; [apply sort_by_ipv4_sorted|].
  split; [apply sort_by_ipv4_perm|].
  split; [intros k; apply sort_by_ipv4_filter|].
  split; [apply export_to_json_text|].
  split; [intros ys; apply export_to_yaml_text|].
  split; [intros Hv; apply export_to_csv_text, Hv|].
  intros Hdistinct.
  pose proof (sort_by_ipv4_perm_eq l1 l2 Hperm Hdistinct) as Heq.
  unfold export_to_json, export_to_yaml, export_to_csv. rewrite Heq.
  split; [reflexivity|]. split; reflexivity.
Qed.

Lemma exports_sorted_by_ipv4_witness :
  filter (fun t => ipv4 t =? ipv4 target_a) (sort_by_ipv4 [target_c; target_b; target_a]) =
    [target_b; target_a] /\
  export_to_json sample_summary [target_c; target_a] =
  export_to_json sample_summary [target_a; target_c] /\
  export_to_csv sample_summary [target_c; target_a] =
  export_to_csv sample_summary [target_a; target_c].
Proof.
  pose proof (exports_sorted_by_ipv4 sample_summary [target_c; target_b; target_a]
                [target_c; target_b; target_a] (Permutation_refl _))
    as (_ & _ & Hk & _).
  pose proof (exports_sorted_by_ipv4 sample_summary [target_c; target_a] [target_a; target_c]
                (perm_swap _ _ _)) as (_ & _ & _ & _ & _ & _ & Hd).
  destruct (Hd ltac:(vm_compute; repeat constructor; simpl; lia)) as (Hj & _ & Hc).
  split; [|split; [exact Hj|exact Hc]].
  rewrite (Hk (ipv4 target_a)). vm_compute. reflexivity.
Defined.

(** ** C5 *)

(** C5 (as stated, refuted): a present hostname is shown as it is, so a
    hostname whose text is "(disabled)" puts that text in the cell while
    the hostname is present and resolution is enabled. *)
Lemma hostname_cell_disabled_text_when_present :
  let t := {| ipv4 := 3232235777; target_mac := mac_1;
              hostname := Some "(disabled)"; vendor := None |} in
  hostname t <> None /\ resolve_hostname opts_resolving = true /\
  table_row opts_resolving 15 15 t =
  "| 192.168.1.1     | 00:1b:21:3a:4c:5d | " ++ "(disabled)" ++
  "      |                 |" ++ nl.
Proof.
  split; [discriminate|]. split; [reflexivity|]. vm_compute. reflexivity.
Qed.

(** C5 (amended): in a row, the hostname cell is the hostname when present,
    "(disabled)" when absent with resolution disabled, empty when absent
    with resolution enabled; the text "(disabled)" shows only in the first
    case (for a hostname that is itself "(disabled)") or the second; the
    vendor cell is the vendor, or empty. *)
Theorem row_hostname_vendor_cells (options : ScanOptions) (detail : TargetDetails)
  (h_max v_max : nat) :
  (exists pre post, table_row options h_max v_max detail =
     pre ++ pad (hostname_text options detail) h_max ++ " | " ++
     pad (vendor_text detail) v_max ++ post) /\
  (forall h, hostname detail = Some h -> hostname_text options detail = h) /\
  (hostname detail = None -> resolve_hostname options = false ->
   hostname_text options detail = "(disabled)") /\
  (hostname detail = None -> resolve_hostname options = true ->
   hostname_text options detail = "") /\
  (hostname_text options detail = "(disabled)" ->
   (hostname detail = None /\ resolve_hostname options = false) \/
   hostname detail = Some "(disabled)") /\
  (forall v, vendor detail = Some v -> vendor_text detail = v) /\
  (vendor detail = None -> vendor_text detail = "").
Proof.
  unfold hostname_text, vendor_text.
  split.
  { exists ("| " ++ pad (fmt_ipv4 (ipv4 detail)) 15 ++ " | " ++ fmt_mac (target_mac detail) ++ " | "),
           (" |" ++ nl).
    unfold table_row, hostname_text, vendor_text. rewrite <- !string_app_assoc. reflexivity. }
  destruct (hostname detail) as [h|], (resolve_hostname options), (vendor detail) as [v|];
    simpl; repeat split; intros; try congruence; auto; subst; right; reflexivity.
Qed.

Lemma row_hostname_vendor_cells_witness :
  hostname_text opts_not_resolving target_b = "(disabled)" /\
  hostname_text opts_resolving target_b = "" /\
  vendor_text target_a = "".
Proof.
  destruct (row_hostname_vendor_cells opts_not_resolving target_b 15 15)
    as (_ & _ & H1 & _ & _ & _ & _).
  destruct (row_hostname_vendor_cells opts_resolving target_b 15 15)
    as (_ & _ & _ & H2 & _ & _ & _).
  destruct (row_hostname_vendor_cells opts_resolving target_a 15 15)
    as (_ & _ & _ & _ & _ & _ & H3).
  split; [apply H1; reflexivity|]. split; [apply H2; reflexivity|]. apply H3; reflexivity.
Defined.

(** ** C6 *)

(** C6: the hostname and vendor columns of the table are
    [max(15, longest present value)] wide (lengths in bytes, as [len()]);
    the header, the separator and every row pad those cells to exactly
    that many characters, and a value is padded, never cut. *)
Theorem display_column_widths (fmt_seconds : Z -> string) (s : ResponseSummary)
  (l : list TargetDetails) (options : ScanOptions) :
  let hw := spec_hostname_width l in
  let vw := spec_vendor_width l in
  column_widths (sort_by_ipv4 l) = (hw, vw) /\
  (exists post, display_scan_results fmt_seconds s l options =
     (if negb (is_empty l) then table_header hw vw else "") ++
     String.concat "" (map (table_row options hw vw) (sort_by_ipv4 l)) ++ post) /\
  char_count (pad "Hostname" hw) = hw /\ char_count (pad "Vendor" vw) = vw /\
  char_count (pad_left_with "-" "" hw) = hw /\ char_count (pad_left_with "-" "" vw) = vw /\
  Forall (fun t =>
    char_count (pad (hostname_text options t) hw) = hw /\
    char_count (pad (vendor_text t) vw) = vw /\
    (exists fill, pad (hostname_text options t) hw = hostname_text options t ++ fill) /\
    (exists fill, pad (vendor_text t) vw = vendor_text t ++ fill))
    (sort_by_ipv4 l).
Proof.
  intros hw vw.
  assert (Hhw : (15 <= hw)%nat) by apply fold_max_ge_init.
  assert (Hvw : (15 <= vw)%nat) by apply fold_max_ge_init.
  split; [apply column_widths_spec|].
  split.
  { eexists. rewrite display_scan_results_shape. reflexivity. }
  split; [apply char_count_pad; simpl; lia|].
  split; [apply char_count_pad; simpl; lia|].
  split; [apply char_count_pad_with; [reflexivity|simpl; lia]|].
  split; [apply char_count_pad_with; [reflexivity|simpl; lia]|].
  rewrite Forall_forall. intros t Ht.
  assert (Hin : In t l) by (eapply Permutation_in; [apply sort_by_ipv4_perm|exact Ht]).
  split; [apply char_count_pad, hostname_cell_fits, Hin|].
  split; [apply char_count_pad, vendor_cell_fits, Hin|].
  split; eexists; reflexivity.
Qed.

Lemma display_column_widths_witness :
  column_widths (sort_by_ipv4 [target_a; target_c]) = (23%nat, 20%nat) /\
  char_count (pad (hostname_text opts_resolving target_a) 23) = 23%nat.
Proof.
  destruct (display_column_widths (fun _ => "1.500") sample_summary [target_a; target_c]
              opts_resolving) as (Hw & _ & _ & _ & _ & _ & Hrows).
  split; [exact Hw|].
  rewrite Forall_forall in Hrows.
  exact (proj1 (Hrows target_a ltac:(vm_compute; auto))).
Defined.

(** ** C7 *)

(** C7: the CSV text does not depend on the summary at all, while the JSON
    and the YAML texts start with [packet_count], [arp_count] and
    [duration_ms], each the summary's value. *)
Theorem export_summary_fields (s1 s2 : ResponseSummary) (l : list TargetDetails)
  (yaml_scalar : string -> string) :
  export_to_csv s1 l = export_to_csv s2 l /\
  (exists rest, export_to_json s1 l =
     Ret ("{" ++ json_member "packet_count" (dec (packet_count s1)) ++ "," ++
          json_member "arp_count" (dec (arp_count s1)) ++ "," ++
          json_member "duration_ms" (dec (duration_ms s1)) ++ "," ++ rest)) /\
  (exists rest, export_to_yaml yaml_scalar s1 l =
     Ret ("---" ++ nl ++
          "packet_count: " ++ dec (packet_count s1) ++ nl ++
          "arp_count: " ++ dec (arp_count s1) ++ nl ++
          "duration_ms: " ++ dec (duration_ms s1) ++ nl ++ rest)).
Proof.
  split; [reflexivity|].
  split.
  - eexists. rewrite export_to_json_text.
    unfold json_to_string, get_serializable_result, join.
    cbn [Ser.packet_count Ser.arp_count Ser.duration_ms].
    rewrite !string_concat_cons. rewrite <- !string_app_assoc. reflexivity.
  - eexists. rewrite export_to_yaml_text. unfold yaml_to_string, get_serializable_result.
    cbn [Ser.packet_count Ser.arp_count Ser.duration_ms]. reflexivity.
Qed.

Lemma export_summary_fields_witness :
  export_to_csv sample_summary [target_a] =
  export_to_csv {| packet_count := 0; arp_count := 0; duration_ms := 0 |} [target_a].
Proof.
  exact (proj1 (export_summary_fields sample_summary
                  {| packet_count := 0; arp_count := 0; duration_ms := 0 |} [target_a]
                  (fun x => x))).
Defined.

(** ** C8 *)

(** C8 (as stated, refuted): with no target, nothing is serialized, so the
    CSV writer never writes its header row and the text is empty. *)
Lemma export_to_csv_no_header_when_empty :
  export_to_csv sample_summary [] = Ret "" /\
  forall rest, "" <> csv_record_line result_item_header ++ rest.
Proof.
  split; [reflexivity|]. intros rest H. discriminate H.
Qed.

(** C8 (amended): for a non-empty target list the CSV text is the header
    row [ipv4,mac,hostname,vendor] followed by one row per target (in
    ascending IPv4 order); for the empty list it is empty. *)
Theorem export_to_csv_rows (s : ResponseSummary) (l : list TargetDetails)
  (Hvalid : Forall target_strings_valid l) :
  export_to_csv s l =
  Ret (match l with
       | [] => ""
       | _ => csv_record_line ["ipv4"; "mac"; "hostname"; "vendor"] ++
              String.concat ""
                (map (fun t => csv_record_line (result_item_fields (to_result_item t)))
                     (sort_by_ipv4 l))
       end).
Proof.
  rewrite export_to_csv_text by exact Hvalid. unfold spec_csv_text.
  destruct l as [|t l']; [reflexivity|].
  pose proof (Permutation_length (sort_by_ipv4_perm (t :: l'))) as Hlen.
  destruct (sort_by_ipv4 (t :: l')) as [|x xs]; [discriminate Hlen|].
  cbn [map]. rewrite map_map. reflexivity.
Qed.

Lemma export_to_csv_rows_witness :
  export_to_csv sample_summary [target_c; target_a] =
  Ret ("ipv4,mac,hostname,vendor" ++ nl ++
       "192.168.1.1,00:1b:21:3a:4c:5d,router," ++ nl ++
       "192.168.1.20,aa:bb:cc:dd:ee:ff,printer.lan.example.org,Example Devices Inc." ++ nl).
Proof.
  rewrite (export_to_csv_rows sample_summary [target_c; target_a]).
  - vm_compute. reflexivity.
  - repeat constructor; intros x Hx; vm_compute in Hx; inversion Hx; reflexivity.
Defined.

(** ** C9 *)

(** C9: the summary lines end the output; the host count reads
    "no hosts found" (painted red), "1 host found" or "N hosts found"; the
    packet count "No packets received", "1 packet received" or
    "N packets received"; the ARP count "no ARP packets filtered",
    "1 ARP packet filtered" or "N ARP packets filtered"; the packet and
    ARP phrases are joined by ", ". *)
Theorem display_count_phrases (fmt_seconds : Z -> string) (s : ResponseSummary)
  (l : list TargetDetails) (options : ScanOptions) :
  (exists pre, display_scan_results fmt_seconds s l options =
     pre ++ nl ++ "ARP scan finished, " ++ target_count_text (List.length l) ++
     " in " ++ fmt_seconds (duration_ms s) ++ " seconds" ++ nl ++
     packet_count_text (packet_count s) ++ arp_count_text (arp_count s) ++ nl ++ nl) /\
  target_count_text 0 = red_paint "no hosts found" /\
  target_count_text 1 = "1 host found" /\
  (forall n, (1 < n)%nat -> target_count_text n = dec (Z.of_nat n) ++ " hosts found") /\
  packet_count_text 0 = "No packets received" ++ ", " /\
  packet_count_text 1 = "1 packet received" ++ ", " /\
  (forall n, 1 < n -> packet_count_text n = dec n ++ " packets received" ++ ", ") /\
  arp_count_text 0 = "no ARP packets filtered" /\
  arp_count_text 1 = "1 ARP packet filtered" /\
  (forall n, 1 < n -> arp_count_text n = dec n ++ " ARP packets filtered").
Proof.
  split.
  { exists ((if negb (is_empty l) then table_header (spec_hostname_width l) (spec_vendor_width l)
             else "") ++
            String.concat "" (map (table_row options (spec_hostname_width l) (spec_vendor_width l))
                                  (sort_by_ipv4 l))).
    rewrite display_scan_results_shape. rewrite <- string_app_assoc. reflexivity. }
  split; [reflexivity|]. split; [reflexivity|].
  split; [intros [|[|n]] Hn; [lia|lia|reflexivity]|].
  split; [reflexivity|]. split; [reflexivity|].
  split.
  { intros n Hn. unfold packet_count_text.
    destruct (Z.eqb_spec n 0); [lia|]. destruct (Z.eqb_spec n 1); [lia|].
    reflexivity. }
  split; [reflexivity|]. split; [reflexivity|].
  intros n Hn. unfold arp_count_text.
  destruct (Z.eqb_spec n 0); [lia|]. destruct (Z.eqb_spec n 1); [lia|]. reflexivity.
Qed.

Lemma display_count_phrases_witness :
  target_count_text 5 = "5 hosts found" /\
  packet_count_text 12 = "12 packets received, " /\
  arp_count_text 2 = "2 ARP packets filtered".
Proof.
  destruct (display_count_phrases (fun _ => "1.500") sample_summary [] opts_resolving)
    as (_ & _ & _ & Ht & _ & _ & Hp & _ & _ & Ha).
  split; [rewrite (Ht 5%nat ltac:(lia)); reflexivity|].
  split; [rewrite (Hp 12 ltac:(lia)); reflexivity|].
  rewrite (Ha 2 ltac:(lia)); reflexivity.
Defined.

(** ** C10 *)

(** C10: on targets whose strings are valid UTF-8 (as every Rust [String]
    is), every export returns its text and never reaches its
    [process::exit] branch: the data handed to serde_json and serde_yaml
    holds only strings, unsigned integers, a sequence and structs, with no
    error raised by a [Serialize] impl and no map key, the serializers'
    only failing cases; the CSV writer always gets records of four fields,
    and its bytes are UTF-8. *)
Theorem exports_never_exit (s : ResponseSummary) (l : list TargetDetails)
  (Hvalid : Forall target_strings_valid l) :
  (exists json, export_to_json s l = Ret json) /\
  (forall yaml_scalar, exists yaml, export_to_yaml yaml_scalar s l = Ret yaml) /\
  (exists csv, export_to_csv s l = Ret csv).
Proof.
  split; [eexists; apply export_to_json_text|].
  split; [intros ys; eexists; apply export_to_yaml_text|].
  eexists. apply export_to_csv_text, Hvalid.
Qed.

Lemma exports_never_exit_witness :
  exists csv, export_to_csv sample_summary [target_a; target_b; target_c] = Ret csv.
Proof.
  apply (exports_never_exit sample_summary [target_a; target_b; target_c]).
  repeat constructor; intros x Hx; vm_compute in Hx; inversion Hx; reflexivity.
Defined.

(** * Further properties of utils.rs *)

(** ** is_root_user *)

(** X1: [is_root_user] holds exactly when the first [USER] entry of the
    environment is [root]; an unset or non-UTF-8 [USER] gives [false]. *)
Theorem is_root_user_iff (environ : list (string * string)) :
  is_root_user environ = true <->
  find (fun kv => String.eqb (fst kv) "USER") environ = Some ("USER", "root").
Proof.
  unfold is_root_user, env_var.
  destruct (find _ environ) as [[k v]|] eqn:E.
  - apply find_some in E as [_ Ek]. simpl in Ek. apply String.eqb_eq in Ek. subst k.
    destruct (utf8_valid v) eqn:U.
    + rewrite String.eqb_eq.
      split; [intros ->; reflexivity|intros H; injection H as ->; reflexivity].
    + split; [discriminate|intros H; injection H as ->; discriminate U].
  - split; discriminate.
Qed.

(** ** show_interfaces *)

Lemma i32_wrap_add a b : i32_wrap (i32_wrap a + b) = i32_wrap (a + b).
Proof.
  unfold i32_wrap. f_equal.
  replace ((a + 2 ^ 31) mod 2 ^ 32 - 2 ^ 31 + b + 2 ^ 31)
    with ((a + 2 ^ 31) mod 2 ^ 32 + b) by ring.
  rewrite Z.add_mod_idemp_l by lia. f_equal. ring.
Qed.

Lemma i32_wrap_small x : - 2 ^ 31 <= x < 2 ^ 31 -> i32_wrap x = x.
Proof. intros H. unfold i32_wrap. rewrite Z.mod_small by lia. ring. Qed.

Lemma dec_i32_nonneg n : 0 <= n -> dec_i32 n = dec n.
Proof. intros H. unfold dec_i32. destruct (Z.ltb_spec n 0); [lia|reflexivity]. Qed.

Lemma show_interfaces_loop_spec fmt6 : forall l a b out,
  show_interfaces_loop fmt6 (i32_wrap a) (i32_wrap b) out l =
  (i32_wrap (a + Z.of_nat (List.length l)),
   i32_wrap (b + Z.of_nat (List.length (filter is_ready l))),
   out ++ String.concat "" (map (interface_line fmt6) l)).
Proof.
  induction l as [|i l IH]; intros a b out.
  - simpl. rewrite !Z.add_0_r, string_app_nil_r. reflexivity.
  - cbn [show_interfaces_loop map filter]. unfold i32_add. rewrite i32_wrap_add.
    rewrite string_concat_empty_cons, string_app_assoc.
    destruct (is_ready i).
    + rewrite i32_wrap_add, IH. cbn [List.length].
      f_equal. f_equal; f_equal; lia.
    + rewrite IH. cbn [List.length]. f_equal. f_equal. f_equal. lia.
Qed.

Lemma filter_length_le {A} (f : A -> bool) : forall l,
  (List.length (filter f l) <= List.length l)%nat.
Proof. induction l as [|x l IH]; simpl; [lia|]. destruct (f x); simpl; lia. Qed.

(** X2: the text of [show_interfaces]: one line per interface in list order,
    then the number of interfaces and the number of them that are up, not
    loopback and have an IP, then the default interface line if one is
    selected. *)
Theorem show_interfaces_text (fmt_ipv6_network : Ipv6Network -> string)
  (interfaces : list NetworkInterface)
  (Hlen : Z.of_nat (List.length interfaces) < 2 ^ 31) :
  show_interfaces fmt_ipv6_network interfaces =
  nl ++ String.concat "" (map (interface_line fmt_ipv6_network) interfaces) ++ nl ++
  "Found " ++ dec (Z.of_nat (List.length interfaces)) ++ " network interfaces, " ++
  dec (Z.of_nat (List.length (filter is_ready interfaces))) ++
  " seems ready for ARP scans" ++ nl ++
  match select_default_interface interfaces with
  | Some default_interface =>
      "Default network interface will be " ++ name default_interface ++ nl
  | None => ""
  end ++ nl.
Proof.
  unfold show_interfaces.
  change (show_interfaces_loop fmt_ipv6_network 0 0 "" interfaces)
    with (show_interfaces_loop fmt_ipv6_network (i32_wrap 0) (i32_wrap 0) "" interfaces).
  rewrite show_interfaces_loop_spec. cbn [append].
  pose proof (filter_length_le is_ready interfaces) as Hf.
  rewrite !Z.add_0_l, !i32_wrap_small by lia.
  rewrite !dec_i32_nonneg by lia. reflexivity.
Qed.

Lemma show_interfaces_text_witness :
  show_interfaces (fun _ => "::/64") [if_lo; if_down; if_v6only; if_eth0] =
  nl ++ String.concat "" (map (interface_line (fun _ => "::/64"))
                               [if_lo; if_down; if_v6only; if_eth0]) ++ nl ++
  "Found 4 network interfaces, 2 seems ready for ARP scans" ++ nl ++
  "Default network interface will be eth0" ++ nl ++ nl.
Proof.
  rewrite (show_interfaces_text (fun _ => "::/64") [if_lo; if_down; if_v6only; if_eth0]
             ltac:(simpl; lia)).
  reflexivity.
Defined.



(** ** display_prescan_details *)

(** X4: [display_prescan_details] lists every network when there are at most
    five, and otherwise the first five followed by [(N more)] with N the
    number left out; the text depends on the networks only through the first
    five and their number. *)
Theorem display_prescan_details_networks (fmt_ipv6_network : Ipv6Network -> string)
  (selected_interface : NetworkInterface) (scan_options : ScanOptions) :
  (forall ip_networks, (List.length ip_networks <= 5)%nat ->
   exists rest,
   display_prescan_details fmt_ipv6_network ip_networks selected_interface scan_options =
   nl ++ "Selected interface " ++ name selected_interface ++ " with IP " ++
   join ", " (map (fmt_ip_network fmt_ipv6_network) ip_networks) ++ nl ++ rest) /\
  (forall ip_networks, (5 < List.length ip_networks)%nat ->
   exists rest,
   display_prescan_details fmt_ipv6_network ip_networks selected_interface scan_options =
   nl ++ "Selected interface " ++ name selected_interface ++ " with IP " ++
   join ", " (map (fmt_ip_network fmt_ipv6_network) (firstn 5 ip_networks)) ++
   " (" ++ dec (Z.of_nat (List.length ip_networks - 5)) ++ " more)" ++ nl ++ rest) /\
  (forall l1 l2, firstn 5 l1 = firstn 5 l2 -> List.length l1 = List.length l2 ->
   display_prescan_details fmt_ipv6_network l1 selected_interface scan_options =
   display_prescan_details fmt_ipv6_network l2 selected_interface scan_options).
Proof.
  split; [|split].
  - intros l Hl. unfold display_prescan_details.
    rewrite firstn_all2 by exact Hl.
    destruct (Nat.ltb_spec 5 (List.length l)); [lia|].
    eexists. app_norm. cbn [append]. reflexivity.
  - intros l Hl. unfold display_prescan_details.
    destruct (Nat.ltb_spec 5 (List.length l)); [|lia].
    eexists. app_norm. reflexivity.
  - intros l1 l2 Hf Hl. unfold display_prescan_details. rewrite Hf, Hl. reflexivity.
Qed.

Lemma display_prescan_details_networks_witness :
  display_prescan_details (fun _ => "::/64") [net_a; net_b; net_a; net_b; net_a; net_b; net_a]
    if_eth0 opts_resolving =
  display_prescan_details (fun _ => "::/64") [net_a; net_b; net_a; net_b; net_a; net_a; net_a]
    if_eth0 opts_resolving.
Proof.
  destruct (display_prescan_details_networks (fun _ => "::/64") if_eth0 opts_resolving)
    as (_ & _ & H).
  apply H; reflexivity.
Defined.

(** ** compute_network_size *)

Lemma fold_network_size_mod (ipv4_size : Ipv4Network -> Z) (ipv6_size : Ipv6Network -> Z) :
  forall l t, (forall n, ~ In (V6 n) l) ->
  fold_network_size ipv4_size ipv6_size (t mod 2 ^ 128) l =
  Ret ((t + ipv4_total ipv4_size l) mod 2 ^ 128).
Proof.
  induction l as [|a l IH]; intros t Hno.
  - simpl. rewrite Z.add_0_r. reflexivity.
  - destruct a as [n4|n6]; [|exfalso; apply (Hno n6); left; reflexivity].
    cbn [fold_network_size size ipv4_total]. unfold u128_add.
    rewrite Z.add_mod_idemp_l by lia.
    rewrite IH by (intros n Hn; apply (Hno n); right; exact Hn).
    f_equal. f_equal. ring.
Qed.

(** X5: without IPv6 network, [compute_network_size] returns the sum of the
    IPv4 sizes reduced modulo 2^128 (the [u128] addition wraps). *)
Theorem compute_network_size_wrapping_sum (ipv4_size : Ipv4Network -> Z)
  (ipv6_size : Ipv6Network -> Z) (ip_networks : list IpNetwork)
  (Hno6 : forall n, ~ In (V6 n) ip_networks) :
  compute_network_size ipv4_size ipv6_size ip_networks =
  Ret (ipv4_total ipv4_size ip_networks mod 2 ^ 128).
Proof.
  unfold compute_network_size. change 0 with (0 mod 2 ^ 128) at 1.
  rewrite fold_network_size_mod by exact Hno6. reflexivity.
Qed.

Lemma compute_network_size_wrapping_sum_witness :
  compute_network_size (fun _ => 2 ^ 127) ipv6_size_of_prefix [net_a; net_b; net_a] =
  Ret (2 ^ 127).
Proof.
  rewrite (compute_network_size_wrapping_sum (fun _ => 2 ^ 127) ipv6_size_of_prefix
             [net_a; net_b; net_a]).
  - reflexivity.
  - intros n Hn. simpl in Hn. destruct Hn as [H|[H|[H|[]]]]; discriminate.
Defined.

Lemma ipv4_total_perm (ipv4_size : Ipv4Network -> Z) :
  forall l1 l2, Permutation l1 l2 -> ipv4_total ipv4_size l1 = ipv4_total ipv4_size l2.
Proof.
  intros l1 l2 Hp. induction Hp as [|x l1 l2 _ IH|x y l|l1 l2 l3 _ IH1 _ IH2].
  - reflexivity.
  - destruct x; simpl; rewrite IH; reflexivity.
  - destruct x, y; simpl; ring.
  - congruence.
Qed.

(** X6: the outcome of [compute_network_size] does not depend on the order
    of the networks. *)
Theorem compute_network_size_permutation (ipv4_size : Ipv4Network -> Z)
  (ipv6_size : Ipv6Network -> Z) (l1 l2 : list IpNetwork) (Hp : Permutation l1 l2) :
  compute_network_size ipv4_size ipv6_size l1 = compute_network_size ipv4_size ipv6_size l2.
Proof.
  destruct (find (fun n => negb (is_ipv4 n)) l1) as [x|] eqn:E.
  - apply find_some in E as [Hin Hx]. destruct x as [n4|n6]; [discriminate|].
    unfold compute_network_size.
    rewrite (fold_network_size_ipv6 _ _ l1 0 n6 Hin).
    rewrite (fold_network_size_ipv6 _ _ l2 0 n6 (Permutation_in _ Hp Hin)).
    reflexivity.
  - assert (H1 : forall n, ~ In (V6 n) l1).
    { intros n Hn. pose proof (find_none _ _ E _ Hn). discriminate. }
    assert (H2 : forall n, ~ In (V6 n) l2).
    { intros n Hn. apply (H1 n). apply (Permutation_in _ (Permutation_sym Hp) Hn). }
    unfold compute_network_size. change 0 with (0 mod 2 ^ 128).
    rewrite !fold_network_size_mod by assumption.
    rewrite (ipv4_total_perm _ _ _ Hp). reflexivity.
Qed.

Lemma compute_network_size_permutation_witness :
  compute_network_size ipv4_size_of_prefix ipv6_size_of_prefix [net_a; V6 net_v6] =
  compute_network_size ipv4_size_of_prefix ipv6_size_of_prefix [V6 net_v6; net_a].
Proof.
  apply compute_network_size_permutation. apply perm_swap.
Defined.

(** ** select_default_interface *)

(** X7: selecting among two lists of interfaces put together gives the
    selection of the first list, or, if it has none, that of the second. *)
Theorem select_default_interface_app (l1 l2 : list NetworkInterface) :
  select_default_interface (l1 ++ l2) =
  match select_default_interface l1 with
  | Some i => Some i
  | None => select_default_interface l2
  end.
Proof.
  unfold select_default_interface. induction l1 as [|i l1 IH]; [reflexivity|].
  simpl. destruct (default_interface_filter i); [reflexivity|exact IH].
Qed.

(** ** Sorting the targets *)

Lemma sort_by_ipv4_sorted_id : forall l, Sorted ipv4_le l -> sort_by_ipv4 l = l.
Proof.
  induction l as [|t l IH]; intros Hs; [reflexivity|].
  apply Sorted_inv in Hs as [Hs Hh]. simpl. rewrite (IH Hs).
  destruct l as [|u l]; [reflexivity|]. inversion Hh as [|? ? Hle]; subst.
  unfold ipv4_le in Hle. simpl. destruct (Z.leb_spec (ipv4 t) (ipv4 u)); [reflexivity|lia].
Qed.

Lemma sort_by_ipv4_idem l : sort_by_ipv4 (sort_by_ipv4 l) = sort_by_ipv4 l.
Proof. apply sort_by_ipv4_sorted_id, sort_by_ipv4_sorted. Qed.

(** X8: the targets already sorted by IPv4 address are left as they are, so
    sorting them before an export or the table changes nothing. *)
Theorem presorted_targets_unchanged (response_summary : ResponseSummary)
  (target_details : list TargetDetails) (options : ScanOptions)
  (fmt_seconds : Z -> string) (yaml_scalar : string -> string) :
  (Sorted ipv4_le target_details -> sort_by_ipv4 target_details = target_details) /\
  export_to_json response_summary (sort_by_ipv4 target_details) =
    export_to_json response_summary target_details /\
  export_to_yaml yaml_scalar response_summary (sort_by_ipv4 target_details) =
    export_to_yaml yaml_scalar response_summary target_details /\
  export_to_csv response_summary (sort_by_ipv4 target_details) =
    export_to_csv response_summary target_details /\
  display_scan_results fmt_seconds response_summary (sort_by_ipv4 target_details) options =
    display_scan_results fmt_seconds response_summary target_details options.
Proof.
  split; [apply sort_by_ipv4_sorted_id|].
  unfold export_to_json, export_to_yaml, export_to_csv, display_scan_results.
  rewrite !sort_by_ipv4_idem. repeat split.
Qed.

Lemma presorted_targets_unchanged_witness :
  sort_by_ipv4 [target_a; target_b; target_c] = [target_a; target_b; target_c].
Proof.
  destruct (presorted_targets_unchanged sample_summary [target_a; target_b; target_c]
              opts_resolving (fun _ => "1.500") (fun s => s)) as [H _].
  apply H. repeat constructor; unfold ipv4_le; simpl; lia.
Defined.

(** X9: with pairwise distinct IPv4 addresses, the printed table does not
    depend on the order of the targets. *)
Theorem display_scan_results_permutation (fmt_seconds : Z -> string)
  (response_summary : ResponseSummary) (l1 l2 : list TargetDetails) (options : ScanOptions)
  (Hp : Permutation l1 l2) (Hd : NoDup (map ipv4 l1)) :
  display_scan_results fmt_seconds response_summary l1 options =
  display_scan_results fmt_seconds response_summary l2 options.
Proof.
  unfold display_scan_results. rewrite (sort_by_ipv4_perm_eq l1 l2 Hp Hd). reflexivity.
Qed.

Lemma display_scan_results_permutation_witness :
  display_scan_results (fun _ => "1.500") sample_summary [target_c; target_a] opts_resolving =
  display_scan_results (fun _ => "1.500") sample_summary [target_a; target_c] opts_resolving.
Proof.
  apply display_scan_results_permutation.
  - apply perm_swap.
  - repeat constructor; simpl; intros H; repeat destruct H as [H|H]; try discriminate; auto.
Defined.

(** ** The result table: alignment and line count *)

Lemma dec_aux_S f n acc : dec_aux (S f) n acc =
  if n <? 10 then String (char_of_digit (n mod 10)) acc
  else dec_aux f (n / 10) (String (char_of_digit (n mod 10)) acc).
Proof. reflexivity. Qed.

Lemma dec_byte_length n : 0 <= n < 256 -> (String.length (dec n) <= 3)%nat.
Proof.
  intros Hn. unfold dec. rewrite dec_aux_S.
  destruct (Z.ltb_spec n 10); [cbn [String.length]; lia|].
  rewrite dec_aux_S. destruct (Z.ltb_spec (n / 10) 10); [cbn [String.length]; lia|].
  rewrite dec_aux_S. destruct (Z.ltb_spec (n / 10 / 10) 10); [cbn [String.length]; lia|].
  exfalso. rewrite Z.div_div in * by lia.
  assert (n / (10 * 10) < 10) by (apply Z.div_lt_upper_bound; lia). lia.
Qed.

Lemma char_count_ascii : forall s, ascii_only s = true -> char_count s = String.length s.
Proof.
  induction s as [|c s IH]; intros H; [reflexivity|].
  cbn [ascii_only] in H. apply andb_prop in H as [Hc Hs].
  cbn [char_count String.length]. rewrite (IH Hs).
  unfold is_continuation. unfold byte_of in Hc. apply Z.ltb_lt in Hc.
  rewrite Z.shiftr_div_pow2 by lia. change (2 ^ 6) with 64.
  destruct (Z.eqb_spec (Z.of_nat (nat_of_ascii c) / 64) 2); [|reflexivity].
  exfalso. assert (Z.of_nat (nat_of_ascii c) / 64 < 2) by (apply Z.div_lt_upper_bound; lia).
  lia.
Qed.

Lemma land_255_bound x : 0 <= Z.land x 255 < 256.
Proof. change 255 with (Z.ones 8). rewrite Z.land_ones by lia. apply Z.mod_pos_bound. lia. Qed.

Lemma fmt_ipv4_width a : (char_count (fmt_ipv4 a) <= 15)%nat.
Proof.
  rewrite char_count_ascii by apply ascii_only_fmt_ipv4.
  unfold fmt_ipv4. rewrite !string_length_app.
  pose proof (dec_byte_length _ (land_255_bound (Z.shiftr a 24))).
  pose proof (dec_byte_length _ (land_255_bound (Z.shiftr a 16))).
  pose proof (dec_byte_length _ (land_255_bound (Z.shiftr a 8))).
  pose proof (dec_byte_length _ (land_255_bound a)).
  cbn [String.length]. lia.
Qed.

Lemma fmt_mac_width m : char_count (fmt_mac m) = 17%nat.
Proof.
  rewrite char_count_ascii by apply ascii_only_fmt_mac.
  destruct m. unfold fmt_mac. rewrite !string_length_app. reflexivity.
Qed.

(** X10: the header, the separator and every target's row of the result
    table are cut by the same borders ([| ], [ | ], [ |]; for the separator
    [|-], [-|-], [-|]) into four cells of the same widths: 15 characters for
    the IPv4 column, 17 for the MAC column, the hostname width and the vendor
    width; so every [|] stands in the same column on every line. *)
Theorem table_lines_aligned (options : ScanOptions) (target_details : list TargetDetails)
  (hostname_len vendor_len : nat)
  (Hw : column_widths (sort_by_ipv4 target_details) = (hostname_len, vendor_len)) :
  (exists h1 h2 h3 h4 s1 s2 s3 s4,
     table_header hostname_len vendor_len =
       nl ++ ("| " ++ h1 ++ " | " ++ h2 ++ " | " ++ h3 ++ " | " ++ h4 ++ " |") ++ nl ++
       ("|-" ++ s1 ++ "-|-" ++ s2 ++ "-|-" ++ s3 ++ "-|-" ++ s4 ++ "-|") ++ nl /\
     char_count h1 = 15%nat /\ char_count s1 = 15%nat /\
     char_count h2 = 17%nat /\ char_count s2 = 17%nat /\
     char_count h3 = hostname_len /\ char_count s3 = hostname_len /\
     char_count h4 = vendor_len /\ char_count s4 = vendor_len) /\
  (forall detail, In detail target_details ->
     exists c1 c2 c3 c4,
       table_row options hostname_len vendor_len detail =
         "| " ++ c1 ++ " | " ++ c2 ++ " | " ++ c3 ++ " | " ++ c4 ++ " |" ++ nl /\
       char_count c1 = 15%nat /\ char_count c2 = 17%nat /\
       char_count c3 = hostname_len /\ char_count c4 = vendor_len).
Proof.
  rewrite column_widths_spec in Hw. injection Hw as Eh Ev.
  pose proof (fold_max_ge_init (map String.length (present_hostnames target_details)) 15) as Hh.
  pose proof (fold_max_ge_init (map String.length (present_vendors target_details)) 15) as Hv.
  change (fold_right Nat.max 15%nat (map String.length (present_hostnames target_details)))
    with (spec_hostname_width target_details) in Hh.
  change (fold_right Nat.max 15%nat (map String.length (present_vendors target_details)))
    with (spec_vendor_width target_details) in Hv.
  rewrite Eh in Hh. rewrite Ev in Hv.
  split.
  - exists "IPv4           ", "MAC              ", (pad "Hostname" hostname_len), (pad "Vendor" vendor_len).
    exists "---------------", "-----------------",
      (pad_left_with "-" "" hostname_len), (pad_left_with "-" "" vendor_len).
    split; [unfold table_header; app_norm; reflexivity|].
    assert (E3 : char_count "Hostname" = 8%nat) by reflexivity.
    assert (E4 : char_count "Vendor" = 6%nat) by reflexivity.
    rewrite !char_count_pad by lia.
    rewrite !char_count_pad_with by (reflexivity || (simpl; lia)).
    repeat split; reflexivity.
  - intros detail Hin.
    exists (pad (fmt_ipv4 (ipv4 detail)) 15), (fmt_mac (target_mac detail)),
      (pad (hostname_text options detail) hostname_len), (pad (vendor_text detail) vendor_len).
    split; [unfold table_row; app_norm; reflexivity|].
    pose proof (hostname_cell_fits options detail target_details Hin) as Hc.
    pose proof (vendor_cell_fits detail target_details Hin) as Hd.
    rewrite Eh in Hc. rewrite Ev in Hd.
    rewrite !char_count_pad by (apply fmt_ipv4_width || lia).
    rewrite fmt_mac_width. repeat split; reflexivity.
Qed.

Lemma table_lines_aligned_witness :
  exists c1 c2 c3 c4,
    table_row opts_resolving 23 20 target_c =
      "| " ++ c1 ++ " | " ++ c2 ++ " | " ++ c3 ++ " | " ++ c4 ++ " |" ++ nl /\
    char_count c1 = 15%nat /\ char_count c2 = 17%nat /\
    char_count c3 = 23%nat /\ char_count c4 = 20%nat.
Proof.
  destruct (table_lines_aligned opts_resolving [target_a; target_c] 23 20 ltac:(vm_compute; reflexivity))
    as [_ H].
  apply H. right. left. reflexivity.
Defined.

Lemma count_nl_app : forall a b, count_nl (a ++ b) = (count_nl a + count_nl b)%nat.
Proof. induction a as [|c a IH]; intros b; simpl; [reflexivity|]. rewrite IH. lia. Qed.

Lemma count_nl_repeat_char c n : Ascii.eqb c "010" = false -> count_nl (repeat_char c n) = 0%nat.
Proof. intros H. induction n as [|n IH]; simpl; [reflexivity|]. rewrite H, IH. reflexivity. Qed.

Lemma count_nl_pad s w : count_nl (pad s w) = count_nl s.
Proof.
  unfold pad, pad_left_with. rewrite count_nl_app, count_nl_repeat_char by reflexivity. lia.
Qed.

Lemma char_of_digit_not_nl d : 0 <= d < 10 -> Ascii.eqb (char_of_digit d) "010" = false.
Proof.
  intros Hd. destruct (Ascii.eqb_spec (char_of_digit d) "010") as [E|]; [|reflexivity].
  exfalso. apply (f_equal nat_of_ascii) in E. unfold char_of_digit in E.
  rewrite nat_ascii_embedding in E by lia. change (nat_of_ascii "010") with 10%nat in E. lia.
Qed.

Lemma count_nl_dec_aux : forall f n acc, count_nl (dec_aux f n acc) = count_nl acc.
Proof.
  induction f as [|f IH]; intros n acc; [reflexivity|]. rewrite dec_aux_S.
  assert (Hd : count_nl (String (char_of_digit (n mod 10)) acc) = count_nl acc).
  { cbn [count_nl]. rewrite char_of_digit_not_nl by (apply Z.mod_pos_bound; lia). reflexivity. }
  destruct (n <? 10); [exact Hd|]. rewrite IH. exact Hd.
Qed.

Lemma count_nl_dec n : count_nl (dec n) = 0%nat.
Proof. apply count_nl_dec_aux. Qed.

Lemma count_nl_hex_byte b : count_nl (hex_byte b) = 0%nat.
Proof. destruct b; vm_compute; reflexivity. Qed.

Lemma count_nl_fmt_ipv4 a : count_nl (fmt_ipv4 a) = 0%nat.
Proof. unfold fmt_ipv4. rewrite !count_nl_app, !count_nl_dec. reflexivity. Qed.

Lemma count_nl_fmt_mac m : count_nl (fmt_mac m) = 0%nat.
Proof. destruct m. unfold fmt_mac. rewrite !count_nl_app, !count_nl_hex_byte. reflexivity. Qed.

Lemma count_nl_target_count_text n : count_nl (target_count_text n) = 0%nat.
Proof.
  destruct n as [|[|n]]; [reflexivity|reflexivity|].
  unfold target_count_text. rewrite count_nl_app, count_nl_dec. reflexivity.
Qed.

Lemma count_nl_packet_count_text n : count_nl (packet_count_text n) = 0%nat.
Proof.
  unfold packet_count_text. destruct (n =? 0); [reflexivity|].
  destruct (n =? 1); [reflexivity|]. rewrite count_nl_app, count_nl_dec. reflexivity.
Qed.

Lemma count_nl_arp_count_text n : count_nl (arp_count_text n) = 0%nat.
Proof.
  unfold arp_count_text. destruct (n =? 0); [reflexivity|].
  destruct (n =? 1); [reflexivity|]. rewrite count_nl_app, count_nl_dec. reflexivity.
Qed.

Lemma count_nl_table_row options h_max v_max detail :
  count_nl (hostname_text options detail) = 0%nat -> count_nl (vendor_text detail) = 0%nat ->
  count_nl (table_row options h_max v_max detail) = 1%nat.
Proof.
  intros Hh Hv. unfold table_row.
  rewrite !count_nl_app, !count_nl_pad, count_nl_fmt_ipv4, count_nl_fmt_mac, Hh, Hv.
  reflexivity.
Qed.

Lemma count_nl_rows options h_max v_max : forall xs,
  (forall t, In t xs -> count_nl (table_row options h_max v_max t) = 1%nat) ->
  count_nl (String.concat "" (map (table_row options h_max v_max) xs)) = List.length xs.
Proof.
  induction xs as [|x xs IH]; intros H; [reflexivity|].
  cbn [map]. rewrite string_concat_empty_cons, count_nl_app, H by (left; reflexivity).
  rewrite IH by (intros t Ht; apply H; right; exact Ht). reflexivity.
Qed.

(** X11: when no hostname or vendor holds a line feed (and neither does the
    rendered duration), [display_scan_results] prints one line per target,
    plus three lines of table header when there is a target, plus four
    summary lines. *)
Theorem display_scan_results_line_count (fmt_seconds : Z -> string)
  (response_summary : ResponseSummary) (target_details : list TargetDetails)
  (options : ScanOptions)
  (Hsec : count_nl (fmt_seconds (duration_ms response_summary)) = 0%nat)
  (Htext : Forall target_single_line target_details) :
  count_nl (display_scan_results fmt_seconds response_summary target_details options) =
  (List.length target_details + (if is_empty target_details then 0 else 3) + 4)%nat.
Proof.
  rewrite display_scan_results_shape, !count_nl_app.
  rewrite count_nl_rows.
  2:{ intros t Ht. apply Permutation_in with (l' := target_details) in Ht;
      [|apply sort_by_ipv4_perm].
      rewrite Forall_forall in Htext. destruct (Htext t Ht) as [Hh Hv].
      apply count_nl_table_row.
      - unfold hostname_text. destruct (hostname t) as [h|] eqn:E; [apply Hh; reflexivity|].
        destruct (negb (resolve_hostname options)); reflexivity.
      - unfold vendor_text. destruct (vendor t) as [v|] eqn:E; [apply Hv; reflexivity|].
        reflexivity. }
  rewrite (Permutation_length (sort_by_ipv4_perm target_details)).
  rewrite count_nl_target_count_text, count_nl_packet_count_text, count_nl_arp_count_text, Hsec.
  assert (Hhd : forall h v, count_nl (table_header h v) = 3%nat).
  { intros h v. unfold table_header, pad_left_with.
    rewrite !count_nl_app, !count_nl_pad, !count_nl_repeat_char by reflexivity. reflexivity. }
  destruct (is_empty target_details); cbn [negb]; [|rewrite Hhd];
    cbn [count_nl Ascii.eqb Bool.eqb andb nl]; lia.
Qed.

Lemma display_scan_results_line_count_witness :
  count_nl (display_scan_results (fun _ => "1.500") sample_summary [target_a; target_b; target_c]
              opts_resolving) = 10%nat.
Proof.
  rewrite (display_scan_results_line_count (fun _ => "1.500") sample_summary
             [target_a; target_b; target_c] opts_resolving).
  - reflexivity.
  - reflexivity.
  - repeat constructor; intros x Hx; vm_compute in Hx; inversion Hx; reflexivity.
Defined.

(** ** JSON and CSV text read back *)

Lemma json_read_string_escape_byte c t :
  json_read_string (json_escape_byte c ++ t) = prepend (String c "") (json_read_string t).
Proof. destruct c as [[] [] [] [] [] [] [] []]; reflexivity. Qed.

Lemma json_read_string_escape : forall s rest,
  json_read_string (json_escape s ++ String DQ rest) = Some (s, rest).
Proof.
  induction s as [|c s IH]; intros rest; [reflexivity|].
  cbn [json_escape]. rewrite <- string_app_assoc, json_read_string_escape_byte, IH.
  reflexivity.
Qed.

(** X12: a JSON string literal written by serde_json (every key and every
    value of the exported JSON) reads back, under JSON's string rules, to
    exactly the original text, and ends at its closing quote: whatever the
    text holds (quotes, backslashes, control characters), nothing after the
    literal is swallowed and nothing is lost. *)
Theorem json_str_read_back (s rest : string) :
  exists body, json_str s ++ rest = String DQ body /\
               json_read_string body = Some (s, rest).
Proof.
  exists (json_escape s ++ String DQ rest). split.
  - unfold json_str. cbn [append]. rewrite <- string_app_assoc. reflexivity.
  - apply json_read_string_escape.
Qed.

Lemma csv_read_unquoted : forall s cur t, csv_needs_quotes s = false ->
  csv_read_record Unquoted cur (s ++ t) = csv_read_record Unquoted (cur ++ s) t.
Proof.
  induction s as [|c s IH]; intros cur t H.
  - rewrite string_app_nil_r. reflexivity.
  - cbn [csv_needs_quotes] in H. apply orb_false_iff in H as [Hc Hs].
    unfold csv_requires_quotes, byte_of in Hc.
    cbn [append csv_read_record].
    destruct (Ascii.eqb_spec c ",") as [->|]; [discriminate Hc|].
    destruct (Ascii.eqb_spec c "010") as [->|]; [discriminate Hc|].
    destruct (Ascii.eqb_spec c DQ) as [->|]; [discriminate Hc|].
    rewrite IH by exact Hs. rewrite <- string_app_assoc. reflexivity.
Qed.

Lemma csv_read_quoted : forall s cur t,
  csv_read_record InQuotes cur (csv_escape s ++ String DQ t) =
  csv_read_record AfterQuote (cur ++ s) t.
Proof.
  induction s as [|c s IH]; intros cur t.
  - rewrite string_app_nil_r. reflexivity.
  - cbn [csv_escape]. destruct (Ascii.eqb_spec c DQ) as [->|Hc].
    + cbn [append csv_read_record]. rewrite IH, <- string_app_assoc. reflexivity.
    + cbn [append csv_read_record].
      destruct (Ascii.eqb_spec c DQ); [contradiction|].
      rewrite IH, <- string_app_assoc. reflexivity.
Qed.

Lemma csv_read_field s c r : c = ","%char \/ c = "010"%char ->
  csv_read_record FieldStart "" (csv_field s ++ String c r) =
  if Ascii.eqb c "," then cons_field s (csv_read_record FieldStart "" r) else Some ([s], r).
Proof.
  intros Hc. unfold csv_field. destruct (csv_needs_quotes s) eqn:Hq.
  - cbn [append csv_read_record]. rewrite <- string_app_assoc. cbn [append].
    change (Ascii.eqb DQ ",") with false. change (Ascii.eqb DQ DQ) with true.
    cbn iota beta. rewrite csv_read_quoted.
    destruct Hc as [->| ->]; reflexivity.
  - destruct s as [|x s'].
    + destruct Hc as [->| ->]; reflexivity.
    + pose proof Hq as Hq'. cbn [csv_needs_quotes] in Hq'. apply orb_false_iff in Hq' as [Hx Hs].
      unfold csv_requires_quotes, byte_of in Hx.
      cbn [append csv_read_record].
      destruct (Ascii.eqb_spec x DQ) as [->|]; [discriminate Hx|].
      destruct (Ascii.eqb_spec x ",") as [->|]; [discriminate Hx|].
      destruct (Ascii.eqb_spec x "010") as [->|]; [discriminate Hx|].
      rewrite csv_read_unquoted by exact Hs.
      destruct Hc as [->| ->]; reflexivity.
Qed.

Lemma csv_read_record_line : forall fields rest, fields <> [] ->
  csv_read_record FieldStart "" (csv_record_line fields ++ rest) = Some (fields, rest).
Proof.
  induction fields as [|f fields IH]; intros rest H; [congruence|].
  unfold csv_record_line, join. cbn [map].
  destruct fields as [|g gs].
  - cbn [String.concat map]. rewrite <- string_app_assoc. unfold nl. cbn [append].
    rewrite csv_read_field by (right; reflexivity). reflexivity.
  - change (String.concat "," (csv_field f :: map csv_field (g :: gs)))
      with (csv_field f ++ "," ++ String.concat "," (map csv_field (g :: gs))).
    rewrite <- !string_app_assoc. cbn [append].
    rewrite csv_read_field by (left; reflexivity).
    change (Ascii.eqb "," ",") with true. cbn iota.
    specialize (IH rest ltac:(discriminate)). unfold csv_record_line, join in IH.
    rewrite <- string_app_assoc in IH. rewrite IH. reflexivity.
Qed.

Lemma csv_record_line_length fields : (1 <= String.length (csv_record_line fields))%nat.
Proof. unfold csv_record_line. rewrite string_length_app. simpl. lia. Qed.

Lemma csv_read_records_lines : forall lines fuel,
  Forall (fun f => f <> []) lines -> (List.length lines <= fuel)%nat ->
  csv_read_records fuel (String.concat "" (map csv_record_line lines)) = Some lines.
Proof.
  induction lines as [|a ls IH]; intros fuel Hne Hf; [destruct fuel; reflexivity|].
  inversion Hne as [|? ? Ha Hls]; subst.
  destruct fuel as [|f]; [simpl in Hf; lia|].
  cbn [map]. rewrite string_concat_empty_cons.
  pose proof (csv_read_record_line a (String.concat "" (map csv_record_line ls)) Ha) as HR.
  pose proof (csv_record_line_length a) as HL.
  destruct (csv_record_line a ++ String.concat "" (map csv_record_line ls)) as [|c0 s0] eqn:E.
  - apply (f_equal String.length) in E. rewrite string_length_app in E. simpl in E. lia.
  - cbn [csv_read_records]. rewrite HR. rewrite IH by (auto; simpl in Hf; lia). reflexivity.
Qed.

Lemma csv_lines_length : forall lines,
  (List.length lines <= String.length (String.concat "" (map csv_record_line lines)))%nat.
Proof.
  induction lines as [|a ls IH]; [simpl; lia|].
  cbn [map]. rewrite string_concat_empty_cons, string_length_app.
  pose proof (csv_record_line_length a). simpl. lia.
Qed.

(** X13: the CSV text of [export_to_csv] reads back, under RFC 4180's rules,
    to the header row and then each target's four fields in ascending IPv4
    order, whatever the hostnames and vendors hold (commas, quotes, line
    breaks); with no target it holds no record. *)
Theorem export_to_csv_read_back (response_summary : ResponseSummary)
  (target_details : list TargetDetails)
  (Hvalid : Forall target_strings_valid target_details) :
  exists text, export_to_csv response_summary target_details = Ret text /\
  csv_read_records (String.length text) text =
  Some (match target_details with
        | [] => []
        | _ => result_item_header ::
               map (fun t => result_item_fields (to_result_item t)) (sort_by_ipv4 target_details)
        end).
Proof.
  rewrite export_to_csv_text by exact Hvalid. eexists. split; [reflexivity|].
  unfold spec_csv_text.
  destruct target_details as [|t l']; [reflexivity|].
  pose proof (Permutation_length (sort_by_ipv4_perm (t :: l'))) as Hlen.
  destruct (sort_by_ipv4 (t :: l')) as [|x xs]; [discriminate Hlen|].
  set (lines := result_item_header :: map (fun t => result_item_fields (to_result_item t)) (x :: xs)).
  assert (Htext : csv_record_line result_item_header ++
           String.concat "" (map (fun r => csv_record_line (result_item_fields r))
                              (map to_result_item (x :: xs))) =
           String.concat "" (map csv_record_line lines)).
  { unfold lines. cbn [map]. rewrite !map_map, !string_concat_empty_cons. reflexivity. }
  cbn [map] in Htext |- *. rewrite Htext.
  apply csv_read_records_lines; [|apply csv_lines_length].
  unfold lines. constructor; [discriminate|].
  apply Forall_forall. intros f Hf. apply in_map_iff in Hf as (u & <- & _). discriminate.
Qed.

Lemma export_to_csv_read_back_witness :
  exists text, export_to_csv sample_summary [target_c; target_b] = Ret text /\
  csv_read_records (String.length text) text =
  Some [["ipv4"; "mac"; "hostname"; "vendor"];
        ["192.168.1.1"; "aa:bb:cc:dd:ee:ff"; ""; "Acme"];
        ["192.168.1.20"; "aa:bb:cc:dd:ee:ff"; "printer.lan.example.org"; "Example Devices Inc."]].
Proof.
  apply (export_to_csv_read_back sample_summary [target_c; target_b]).
  repeat constructor; intros x Hx; vm_compute in Hx; inversion Hx; reflexivity.
Defined.
